(** * Wilderness death map: sample generator and scaled renderer

    A shallow embedding of [src/App.jsx]: the hotspot table, the generator
    [generateDeathData] and the canvas pipeline [drawMap] with its two image
    callbacks, followed by the properties the specification states.

    Modelling conventions.
    - JavaScript numbers are idealised as real numbers ([R]): [Math.sqrt],
      [Math.cos], [Math.sin], [Math.PI], [Math.max], [Math.min] and
      [Math.floor] are [sqrt], [cos], [sin], [PI], [Rmax], [Rmin] and
      [Zfloor].  Rounding of IEEE doubles is not modelled.
    - [Math.random()] is an effect: the [n]-th call returns [random n], and
      the number of calls made so far is threaded as state.
    - Reading a property of [undefined] throws a [TypeError]; a computation
      that throws is [None].
    - The 2D canvas is a record: its size, the state of its drawing context
      and the list of everything painted since the bitmap was last blank. *)

From Stdlib Require Import Reals Lra Lia ZArith List String Bool.
From Equations Require Import Equations.
Import ListNotations.

Open Scope R_scope.

(** ** Data model *)

Record Hotspot := mkHotspot {
  hx : R;
  hy : R;
  radius : R;
  density : R;
  name : string
}.

Record Sample := mkSample {
  x : R;
  y : R
}.

(** [const HOTSPOTS = [...]] *)
Definition HOTSPOTS : list Hotspot :=
  [ mkHotspot 150 700 80 0.4 "Edgeville Wilderness (Lvl 1-5)";
    mkHotspot 650 150 70 0.3 "Chaos Altar / Temple";
    mkHotspot 400 400 90 0.5 "Revenant Caves Entrance";
    mkHotspot 600 550 60 0.25 "Wilderness Slayer/Lava Dragons";
    mkHotspot 400 100 100 0.35 "Deep Wilderness Bosses" ].

(** ** The generator monad: a counter of [Math.random()] calls, and [None]
    for a thrown [TypeError]. *)

Definition Gen (A : Type) : Type := nat -> option (A * nat).

Definition ret {A} (a : A) : Gen A := fun calls => Some (a, calls).

Definition bind {A B} (m : Gen A) (k : A -> Gen B) : Gen B :=
  fun calls =>
    match m calls with
    | None => None
    | Some (a, calls') => k a calls'
    end.

Definition throwTypeError {A} : Gen A := fun _ => None.

Notation "v <- m ;; k" := (bind m (fun v => k))
  (at level 61, m at next level, right associativity).

(** [arr[i]] for an integer-valued [i]: [undefined] out of range. *)
Definition elem_at {A} (arr : list A) (i : Z) : option A :=
  if (i <? 0)%Z then None else nth_error arr (Z.to_nat i).

(** Property access on a value that may be [undefined]. *)
Definition member {A B} (o : option A) (field : A -> B) : Gen B :=
  match o with
  | Some a => ret (field a)
  | None => throwTypeError
  end.

(** [Math.floor].  In [Math.floor(Math.random() * HOTSPOTS.length)] the
    program rounds the product to a double before taking the floor; here the
    product is exact.  For a draw within [2^-53] below a multiple of 1/5 the
    two indices can differ by one; both are indices of the table. *)
Definition Math_floor (r : R) : Z := Zfloor r.

Definition mapWidth : R := 800.
Definition mapHeight : R := 800.

(** [Math.max(0, Math.min(bound, v))] *)
Definition clamp (bound v : R) : R := Rmax 0 (Rmin bound v).

Section Generator.

(** The random source: [random n] is what the [n]-th call of
    [Math.random()] returns. *)
Variable random : nat -> R.

(** The table the generator reads; the program reads [HOTSPOTS]. *)
Variable table : list Hotspot.

Definition Math_random : Gen R := fun calls => Some (random calls, S calls).

(** The body of the [for] loop of [generateDeathData], up to the value
    pushed onto [deaths]. *)
Definition loop_body : Gen Sample :=
  hotspotChance <- Math_random ;;
  xy <- (if Rlt_dec hotspotChance 0.8 then
           u <- Math_random ;;
           let hotspotIndex := Math_floor (u * INR (List.length table)) in
           let chosenHotspot := elem_at table hotspotIndex in
           a <- Math_random ;;
           let angle := a * 2 * PI in
           rad <- member chosenHotspot radius ;;
           v <- Math_random ;;
           let r := rad * sqrt v in
           cx <- member chosenHotspot hx ;;
           cy <- member chosenHotspot hy ;;
           ret (cx + r * cos angle, cy + r * sin angle)
         else
           a <- Math_random ;;
           b <- Math_random ;;
           ret (a * mapWidth, b * mapHeight)) ;;
  ret (mkSample (clamp mapWidth (fst xy)) (clamp mapHeight (snd xy))).

(** [for (let i = 0; i < numDeaths; i++) { ...; deaths.push({x, y}) }
    return deaths] from the state where the counter is [i]. *)
Equations? loop (numDeaths i : Z) (deaths : list Sample) (calls : nat)
  : option (list Sample * nat) by wf (Z.to_nat (numDeaths - i)) lt :=
  loop numDeaths i deaths calls with Z_lt_dec i numDeaths => {
    | left _ with loop_body calls => {
        | None := None
        | Some (d, calls') := loop numDeaths (i + 1) (deaths ++ [d]) calls' }
    | right _ := Some (deaths, calls) }.
Proof. lia. Qed.

Definition generateDeathData_over (numDeaths : Z) : Gen (list Sample) :=
  loop numDeaths 0 [].

End Generator.

(** [generateDeathData(numDeaths)]; the parameter defaults to 2000. *)
Definition numDeaths_default : Z := 2000.

Definition generateDeathData (random : nat -> R) (numDeaths : Z)
  : Gen (list Sample) :=
  generateDeathData_over random HOTSPOTS numDeaths.

(** ** The canvas and its 2D drawing context *)

Record Arc := mkArc {
  arc_x : R;
  arc_y : R;
  arc_radius : R;
  startAngle : R;
  endAngle : R
}.

Record Image := mkImage {
  src : string;
  img_width : positive;   (* natural width of a decoded raster image *)
  img_height : positive
}.

(** What has been painted onto the bitmap, oldest first. *)
Inductive Paint :=
| PaintClear (cx cy cw ch : R)
| PaintImage (img : Image) (dx dy dw dh : R)
| PaintFill (path : list Arc) (style : string)
| PaintStroke (path : list Arc) (style : string) (width : R)
| PaintText (text : string) (tx ty : R) (style font : string).

Record Context2D := mkContext {
  path : list Arc;
  fillStyle : string;
  strokeStyle : string;
  lineWidth : R;
  font : string
}.

Record Canvas := mkCanvas {
  width : R;
  height : R;
  ctx : Context2D;
  bitmap : list Paint
}.

(** The state of a context that has just been created or reset. *)
Definition default_context : Context2D :=
  mkContext [] "#000000" "#000000" 1 "10px sans-serif".

Definition with_ctx (f : Context2D -> Context2D) (c : Canvas) : Canvas :=
  mkCanvas (width c) (height c) (f (ctx c)) (bitmap c).

Definition paint (p : Context2D -> Paint) (c : Canvas) : Canvas :=
  mkCanvas (width c) (height c) (ctx c) (bitmap c ++ [p (ctx c)]).

Definition beginPath : Canvas -> Canvas :=
  with_ctx (fun k => mkContext [] (fillStyle k) (strokeStyle k) (lineWidth k) (font k)).

Definition arc (ax ay r a0 a1 : R) : Canvas -> Canvas :=
  with_ctx (fun k => mkContext (path k ++ [mkArc ax ay r a0 a1])
                       (fillStyle k) (strokeStyle k) (lineWidth k) (font k)).

Definition set_fillStyle (s : string) : Canvas -> Canvas :=
  with_ctx (fun k => mkContext (path k) s (strokeStyle k) (lineWidth k) (font k)).

Definition set_strokeStyle (s : string) : Canvas -> Canvas :=
  with_ctx (fun k => mkContext (path k) (fillStyle k) s (lineWidth k) (font k)).

Definition set_lineWidth (w : R) : Canvas -> Canvas :=
  with_ctx (fun k => mkContext (path k) (fillStyle k) (strokeStyle k) w (font k)).

Definition set_font (s : string) : Canvas -> Canvas :=
  with_ctx (fun k => mkContext (path k) (fillStyle k) (strokeStyle k) (lineWidth k) s).

Definition fill : Canvas -> Canvas :=
  paint (fun k => PaintFill (path k) (fillStyle k)).

Definition stroke : Canvas -> Canvas :=
  paint (fun k => PaintStroke (path k) (strokeStyle k) (lineWidth k)).

Definition fillText (text : string) (tx ty : R) : Canvas -> Canvas :=
  paint (fun k => PaintText text tx ty (fillStyle k) (font k)).

Definition drawImage (img : Image) (dx dy dw dh : R) : Canvas -> Canvas :=
  paint (fun _ => PaintImage img dx dy dw dh).

(** Does the rectangle cover the whole bitmap? *)
Definition covers (rx ry rw rh : R) (c : Canvas) : bool :=
  if Rle_dec rx 0 then
    if Rle_dec ry 0 then
      if Rle_dec (width c) (rx + rw) then
        if Rle_dec (height c) (ry + rh) then true else false
      else false
    else false
  else false.

(** [ctx.clearRect]: a rectangle that covers the bitmap leaves it blank. *)
Definition clearRect (rx ry rw rh : R) (c : Canvas) : Canvas :=
  if covers rx ry rw rh c
  then mkCanvas (width c) (height c) (ctx c) []
  else paint (fun _ => PaintClear rx ry rw rh) c.

(** [arr.forEach(f)] over a threaded state. *)
Definition forEach {A S} (arr : list A) (f : A -> S -> S) (s : S) : S :=
  fold_left (fun acc a => f a acc) arr s.

(** What is visible: the size of the surface and its pixels. *)
Definition surface (c : Canvas) : R * R * list Paint :=
  (width c, height c, bitmap c).

(** ** The component *)

Record Dimensions := mkDimensions {
  dim_width : R;
  dim_height : R
}.

(** The state of the page: the module-level array [HOTSPOTS] (a [const]
    binding of a mutable array), the component's ref and state variables,
    the image loads in flight, the console and the random source. *)
Record AppState := mkApp {
  hotspots : list Hotspot;            (* the array bound to HOTSPOTS *)
  canvasRef : option Canvas;          (* canvasRef.current *)
  mapLoaded : bool;
  deaths : list Sample;
  canvasDimensions : Dimensions;
  loading : list (list Sample);       (* images in flight, each with the
                                         [deaths] its [drawMap] closed over *)
  console : list string;
  randomCalls : nat
}.

Definition initialState (canvas : option Canvas) : AppState :=
  mkApp HOTSPOTS canvas false [] (mkDimensions 0 0) [] [] 0.

Definition WILDERNESS_MAP_URL : string :=
  "https://oldschool.runescape.wiki/images/thumb/The_Wilderness.png/800px-The_Wilderness.png?48133".

Definition fallback_message : string :=
  "Failed to load map image. Please check URL.".

Section Renderer.

(** The conversion to [unsigned long] that the canvas element applies to a
    number assigned to its [width] or [height]. *)
Variable unsigned_long : R -> R.

(** Assigning [canvas.width] or [canvas.height] blanks the bitmap and
    resets the drawing context. *)
Definition set_width (w : R) (c : Canvas) : Canvas :=
  mkCanvas (unsigned_long w) (height c) default_context [].

Definition set_height (h : R) (c : Canvas) : Canvas :=
  mkCanvas (width c) (unsigned_long h) default_context [].

(** The two [forEach] callbacks of [img.onload]. *)
Definition draw_death (scaleX scaleY : R) (death : Sample) (c : Canvas) : Canvas :=
  let c := beginPath c in
  let c := arc (x death * scaleX) (y death * scaleY) 2 0 (PI * 2) c in
  let c := set_fillStyle "rgba(255, 0, 0, 0.5)" c in
  fill c.

Definition draw_hotspot (scaleX scaleY : R) (hotspot : Hotspot) (c : Canvas) : Canvas :=
  let c := beginPath c in
  let c := arc (hx hotspot * scaleX) (hy hotspot * scaleY)
               (radius hotspot * scaleX) 0 (PI * 2) c in
  let c := set_strokeStyle "rgba(0, 255, 255, 0.3)" c in
  let c := set_lineWidth 1 c in
  stroke c.

(** [img.onload], for a [drawMap] that closed over [deaths0]; the container
    is [containerWidth] pixels wide when the image arrives.  The canvas the
    closure holds is the one in the ref. *)
Definition img_onload (img : Image) (containerWidth : N)
    (deaths0 : list Sample) (st : AppState) : AppState :=
  match canvasRef st with
  | None => st
  | Some canvas =>
      let aspectRatio := IZR (Zpos (img_width img)) / IZR (Zpos (img_height img)) in
      let newWidth := IZR (Z.of_N containerWidth) in
      let newHeight := IZR (Z.of_N containerWidth) / aspectRatio in
      let canvas := set_width newWidth canvas in
      let canvas := set_height newHeight canvas in
      let canvas := clearRect 0 0 (width canvas) (height canvas) canvas in
      let canvas := drawImage img 0 0 (width canvas) (height canvas) canvas in
      let scaleX := newWidth / 800 in
      let scaleY := newHeight / 800 in
      let canvas := forEach deaths0 (draw_death scaleX scaleY) canvas in
      let canvas := forEach (hotspots st) (draw_hotspot scaleX scaleY) canvas in
      mkApp (hotspots st) (Some canvas) true (deaths st) (mkDimensions newWidth newHeight)
            (loading st) (console st) (randomCalls st)
  end.

(** [img.onerror] *)
Definition img_onerror (st : AppState) : AppState :=
  match canvasRef st with
  | None => st
  | Some canvas =>
      let log := console st ++ ["Failed to load Wilderness map image."%string] in
      let canvas := clearRect 0 0 (width canvas) (height canvas) canvas in
      let canvas := set_fillStyle "white" canvas in
      let canvas := set_font "20px Arial" canvas in
      let canvas := fillText fallback_message 10 50 canvas in
      mkApp (hotspots st) (Some canvas) (mapLoaded st) (deaths st) (canvasDimensions st)
            (loading st) log (randomCalls st)
  end.

(** [drawMap]: without a canvas, return; otherwise start loading the image.
    The callbacks run when the load completes. *)
Definition drawMap (st : AppState) : AppState :=
  match canvasRef st with
  | None => st
  | Some _ =>
      mkApp (hotspots st) (canvasRef st) (mapLoaded st) (deaths st) (canvasDimensions st)
            (loading st ++ [deaths st]) (console st) (randomCalls st)
  end.

(** [handleResize] *)
Definition handleResize (st : AppState) : AppState :=
  if mapLoaded st then drawMap st else st.

End Renderer.

(** ** The component as a transition system *)

(** How an image load ends; on success the handler also observes the width
    of the canvas's parent element. *)
Inductive ImageResult :=
| LoadOk (img : Image) (containerWidth : N)
| LoadError.

Inductive Event :=
| Mount
| Resize
| Completed (k : nat) (res : ImageResult).

Definition remove_nth {A} (k : nat) (l : list A) : list A :=
  firstn k l ++ skipn (S k) l.

Section App.

Variable unsigned_long : R -> R.
Variable random : nat -> R.

(** The [k]-th load in flight completes and its callback runs. *)
Definition complete (k : nat) (res : ImageResult) (st : AppState) : AppState :=
  match nth_error (loading st) k with
  | None => st
  | Some deaths0 =>
      let st := mkApp (hotspots st) (canvasRef st) (mapLoaded st) (deaths st)
                      (canvasDimensions st) (remove_nth k (loading st))
                      (console st) (randomCalls st) in
      match res with
      | LoadOk img containerWidth =>
          img_onload unsigned_long img containerWidth deaths0 st
      | LoadError => img_onerror st
      end
  end.

(** The pipeline run to completion: [drawMap], then the outcome of the
    load it started. *)
Definition render (res : ImageResult) (st : AppState) : AppState :=
  complete (List.length (loading st)) res (drawMap st).

(** The effects of the first commit, [setDeaths(generateDeathData(5000))]
    and [drawMap()] over the still empty [deaths], then the [drawMap()] of
    the render that sees the new [deaths].  An effect that throws unmounts
    the component. *)
Definition mount (st : AppState) : AppState :=
  match generateDeathData_over random (hotspots st) 5000 (randomCalls st) with
  | None =>
      mkApp (hotspots st) None (mapLoaded st) (deaths st) (canvasDimensions st)
            (loading st) (console st) (randomCalls st)
  | Some (ds, calls) =>
      let st := drawMap st in
      drawMap (mkApp (hotspots st) (canvasRef st) (mapLoaded st) ds (canvasDimensions st)
                     (loading st) (console st) calls)
  end.

Definition step (st : AppState) (e : Event) : AppState :=
  match e with
  | Mount => mount st
  | Resize => handleResize st
  | Completed k res => complete k res st
  end.

Definition run (st : AppState) (events : list Event) : AppState :=
  fold_left step events st.

End App.

(** ** Properties of the generator *)

Definition in_bounds (s : Sample) : Prop :=
  0 <= x s <= 800 /\ 0 <= y s <= 800.

(** A source of draws behaves like [Math.random()]: every value is in [0, 1). *)
Definition unit_draws (random : nat -> R) : Prop :=
  forall n, 0 <= random n < 1.

(** Case analysis on the two comparisons of a [clamp]. *)
Ltac clamp_cases bound v :=
  unfold clamp, Rmax, Rmin;
  destruct (Rle_dec bound v); destruct (Rle_dec 0 _); lra.

Lemma clamp_range (bound v : R) : 0 <= bound -> 0 <= clamp bound v <= bound.
Proof. intros Hb. clamp_cases bound v. Qed.

Lemma clamp_inside (bound v : R) : 0 <= v <= bound -> clamp bound v = v.
Proof. intros Hv. clamp_cases bound v. Qed.



Lemma Zfloor_scaled (u : R) (n : Z) :
  (0 < n)%Z -> 0 <= u < 1 -> (0 <= Zfloor (u * IZR n) < n)%Z.
Proof.
  intros Hn Hu.
  assert (Hn' : 0 < IZR n) by (apply IZR_lt; exact Hn).
  destruct (Zfloor_bound (u * IZR n)) as [Hlo Hhi].
  split.
  - apply Zfloor_lub. simpl. nra.
  - apply lt_IZR. nra.
Qed.


Lemma elem_at_in_range {A} (arr : list A) (i : Z) :
  (0 <= i < Z.of_nat (List.length arr))%Z -> exists a, elem_at arr i = Some a.
Proof.
  intros Hi. unfold elem_at.
  destruct (Z.ltb_spec i 0); [lia|].
  destruct (nth_error arr (Z.to_nat i)) eqn:E; [eauto|].
  apply nth_error_None in E. lia.
Qed.

Section GeneratorFacts.

Variable random : nat -> R.
Variable table : list Hotspot.

(** The hotspot the second draw selects, if any. *)
Definition chosen (calls : nat) : option Hotspot :=
  elem_at table (Math_floor (random (1 + calls) * INR (List.length table))).

(** The point of the disk of [h] that the third and fourth draws select. *)
Definition disk_point (h : Hotspot) (calls : nat) : R * R :=
  let angle := random (2 + calls)%nat * 2 * PI in
  let r := radius h * sqrt (random (3 + calls)%nat) in
  (hx h + r * cos angle, hy h + r * sin angle).

Lemma loop_body_hotspot (calls : nat) (h : Hotspot) :
  random calls < 0.8 ->
  chosen calls = Some h ->
  loop_body random table calls =
    Some (mkSample (clamp mapWidth (fst (disk_point h calls)))
                   (clamp mapHeight (snd (disk_point h calls))),
          (4 + calls)%nat).
Proof.
  intros Hp Hh. unfold chosen in Hh. simpl in Hh.
  unfold loop_body, bind, Math_random.
  destruct (Rlt_dec (random calls) 0.8) as [_|Hn]; [|contradiction].
  rewrite Hh. reflexivity.
Qed.

Lemma loop_body_undefined (calls : nat) :
  random calls < 0.8 ->
  chosen calls = None ->
  loop_body random table calls = None.
Proof.
  intros Hp Hh. unfold chosen in Hh. simpl in Hh.
  unfold loop_body, bind, Math_random.
  destruct (Rlt_dec (random calls) 0.8) as [_|Hn]; [|contradiction].
  rewrite Hh. reflexivity.
Qed.

Lemma loop_body_anywhere (calls : nat) :
  ~ random calls < 0.8 ->
  loop_body random table calls =
    Some (mkSample (clamp mapWidth (random (1 + calls)%nat * mapWidth))
                   (clamp mapHeight (random (2 + calls)%nat * mapHeight)),
          (3 + calls)%nat).
Proof.
  intros Hp. unfold loop_body, bind, Math_random.
  destruct (Rlt_dec (random calls) 0.8) as [Hn|_]; [contradiction|].
  reflexivity.
Qed.

(** One turn of the [for] loop. *)
Lemma loop_turn (numDeaths i : Z) (ds : list Sample) (calls : nat) :
  loop random table numDeaths i ds calls =
    if Z_lt_dec i numDeaths then
      match loop_body random table calls with
      | None => None
      | Some (d, calls') =>
          loop random table numDeaths (i + 1) (ds ++ [d]) calls'
      end
    else Some (ds, calls).
Proof.
  simp loop. destruct (Z_lt_dec i numDeaths); simpl; [|reflexivity].
  destruct (loop_body random table calls) as [[d calls']|]; reflexivity.
Qed.

Lemma chosen_defined (calls : nat) :
  table <> [] -> unit_draws random -> exists h, chosen calls = Some h.
Proof.
  intros Hne Hr. unfold chosen, Math_floor.
  apply elem_at_in_range. rewrite INR_IZR_INZ.
  apply Zfloor_scaled; [|apply Hr].
  destruct table; [contradiction|simpl; lia].
Qed.

(** Over a non-empty table and unit draws the loop body never throws, and
    what it pushes lies on the map. *)
Lemma loop_body_total (calls : nat) :
  table <> [] -> unit_draws random ->
  exists d calls', loop_body random table calls = Some (d, calls')
                   /\ in_bounds d.
Proof.
  intros Hne Hr.
  assert (Hb : forall v w, in_bounds (mkSample (clamp mapWidth v) (clamp mapHeight w))).
  { intros v w. split; simpl; apply clamp_range; unfold mapWidth, mapHeight; lra. }
  destruct (Rlt_dec (random calls) 0.8) as [Hp|Hp].
  - destruct (chosen_defined calls Hne Hr) as [h Hh].
    rewrite (loop_body_hotspot calls h Hp Hh). eauto.
  - rewrite (loop_body_anywhere calls Hp). eauto.
Qed.

(** The loop from counter [i] appends [numDeaths - i] samples. *)
Lemma loop_total (numDeaths : Z) (n : nat) :
  table <> [] -> unit_draws random ->
  forall (i : Z) (ds : list Sample) (calls : nat),
    n = Z.to_nat (numDeaths - i) ->
    exists new calls',
      loop random table numDeaths i ds calls = Some (ds ++ new, calls')
      /\ List.length new = n
      /\ Forall in_bounds new.
Proof.
  intros Hne Hr. induction n as [|n IH]; intros i ds calls Hn.
  - exists [], calls. rewrite loop_turn.
    destruct (Z_lt_dec i numDeaths); [lia|].
    rewrite app_nil_r. auto.
  - rewrite loop_turn.
    destruct (Z_lt_dec i numDeaths); [|lia].
    destruct (loop_body_total calls Hne Hr) as (d & calls1 & -> & Hd).
    destruct (IH (i + 1)%Z (ds ++ [d]) calls1) as (new & calls' & -> & Hlen & Hall);
      [lia|].
    exists (d :: new), calls'. rewrite <- app_assoc. simpl.
    repeat split; auto.
Qed.

End GeneratorFacts.

Lemma HOTSPOTS_nonempty : HOTSPOTS <> [].
Proof. discriminate. Qed.

(** Two hotspots that differ at most in [density]. *)
Definition same_but_density (h1 h2 : Hotspot) : Prop :=
  hx h1 = hx h2 /\ hy h1 = hy h2 /\ radius h1 = radius h2 /\ name h1 = name h2.

Lemma nth_error_Forall2 {A} (P : A -> A -> Prop) (l1 l2 : list A) :
  Forall2 P l1 l2 ->
  forall n, match nth_error l1 n, nth_error l2 n with
            | Some a, Some b => P a b
            | None, None => True
            | _, _ => False
            end.
Proof.
  induction 1 as [|a b l1 l2 Hab _ IH]; intros [|n]; simpl; auto.
  apply IH.
Qed.

Section DensityBlind.

Variable random : nat -> R.
Variables t1 t2 : list Hotspot.
Hypothesis agree : Forall2 same_but_density t1 t2.

Lemma chosen_agree (calls : nat) :
  match chosen random t1 calls, chosen random t2 calls with
  | Some a, Some b => same_but_density a b
  | None, None => True
  | _, _ => False
  end.
Proof.
  unfold chosen, elem_at. rewrite (Forall2_length agree).
  destruct (_ <? 0)%Z; [exact I|].
  apply nth_error_Forall2, agree.
Qed.

Lemma loop_body_agree (calls : nat) :
  loop_body random t1 calls = loop_body random t2 calls.
Proof.
  destruct (Rlt_dec (random calls) 0.8) as [Hp|Hp].
  - pose proof (chosen_agree calls) as Hc.
    destruct (chosen random t1 calls) as [a|] eqn:E1;
      destruct (chosen random t2 calls) as [b|] eqn:E2; try contradiction.
    + rewrite (loop_body_hotspot _ _ _ _ Hp E1), (loop_body_hotspot _ _ _ _ Hp E2).
      destruct Hc as (Hx & Hy & Hr & _).
      unfold disk_point. rewrite Hx, Hy, Hr. reflexivity.
    + rewrite (loop_body_undefined _ _ _ Hp E1), (loop_body_undefined _ _ _ Hp E2).
      reflexivity.
  - rewrite !loop_body_anywhere by exact Hp. reflexivity.
Qed.

Lemma loop_agree (numDeaths : Z) (n : nat) :
  forall (i : Z) (ds : list Sample) (calls : nat),
    n = Z.to_nat (numDeaths - i) ->
    loop random t1 numDeaths i ds calls = loop random t2 numDeaths i ds calls.
Proof.
  induction n as [|n IH]; intros i ds calls Hn; rewrite !loop_turn;
    destruct (Z_lt_dec i numDeaths); try reflexivity; try lia.
  rewrite loop_body_agree.
  destruct (loop_body random t2 calls) as [[d calls']|]; [|reflexivity].
  apply IH. lia.
Qed.

End DensityBlind.

(** With every draw equal to 0 each sample is the centre of the first
    hotspot. *)
Example generateDeathData_zero_draws :
  generateDeathData (fun _ => 0) 2 0%nat
  = Some ([mkSample 150 700; mkSample 150 700], 8%nat).
Proof.
  assert (Hbody : forall calls,
             loop_body (fun _ => 0) HOTSPOTS calls
             = Some (mkSample 150 700, (4 + calls)%nat)).
  { intros calls.
    assert (Hc : chosen (fun _ => 0) HOTSPOTS calls
                 = Some (mkHotspot 150 700 80 0.4 "Edgeville Wilderness (Lvl 1-5)")).
    { unfold chosen, Math_floor. rewrite Rmult_0_l.
      replace (Zfloor 0) with 0%Z; [reflexivity|].
      symmetry. apply Zfloor_eq. simpl. lra. }
    assert (Hp : (fun _ : nat => 0) calls < 0.8) by (simpl; lra).
    rewrite (loop_body_hotspot _ _ calls _ Hp Hc).
    unfold disk_point. simpl. rewrite sqrt_0.
    rewrite !clamp_inside by (unfold mapWidth, mapHeight; lra).
    f_equal. f_equal. f_equal; lra. }
  unfold generateDeathData, generateDeathData_over.
  rewrite loop_turn. destruct (Z_lt_dec 0 2); [|lia]. rewrite Hbody.
  rewrite loop_turn. destruct (Z_lt_dec (0 + 1) 2); [|lia]. rewrite Hbody.
  rewrite loop_turn. destruct (Z_lt_dec (0 + 1 + 1) 2); [lia|]. reflexivity.
Qed.

(** C1. For every integer [count >= 0] and every source of draws in [0, 1),
    [generateDeathData(count)] returns (it does not throw) a list of exactly
    [count] samples, each with [0 <= x <= 800] and [0 <= y <= 800]; for
    [count = 0] the list is empty. *)
Theorem generateDeathData_count_and_bounds
    (random : nat -> R) (count : Z) (calls : nat) :
  unit_draws random ->
  (0 <= count)%Z ->
  exists ds calls',
    generateDeathData random count calls = Some (ds, calls')
    /\ Z.of_nat (List.length ds) = count
    /\ Forall in_bounds ds
    /\ (count = 0%Z -> ds = []).
Proof.
  intros Hr Hc.
  destruct (loop_total random HOTSPOTS count (Z.to_nat count)
              HOTSPOTS_nonempty Hr 0%Z [] calls) as (ds & calls' & Hrun & Hlen & Hall).
  { f_equal. lia. }
  exists ds, calls'. simpl in Hrun.
  repeat split; auto.
  - lia.
  - intros ->. destruct ds; [reflexivity|discriminate].
Qed.

Lemma generateDeathData_count_and_bounds_witness :
  unit_draws (fun _ => 0) /\ (0 <= 3)%Z /\
  exists ds calls',
    generateDeathData (fun _ => 0) 3 0%nat = Some (ds, calls')
    /\ Z.of_nat (List.length ds) = 3%Z
    /\ Forall in_bounds ds
    /\ (3%Z = 0%Z -> ds = []).
Proof.
  assert (Hr : unit_draws (fun _ => 0)) by (intros n; lra).
  assert (Hc : (0 <= 3)%Z) by lia.
  split; [exact Hr|]. split; [exact Hc|].
  exact (generateDeathData_count_and_bounds (fun _ => 0) 3 0%nat Hr Hc).
Defined.







(** C6. The generator never reads [density]: over two tables that agree on
    every field but [density], and over the same draws, it returns the same
    samples (or throws alike). *)
Theorem generateDeathData_ignores_density
    (random : nat -> R) (t1 t2 : list Hotspot) (numDeaths : Z) (calls : nat) :
  Forall2 same_but_density t1 t2 ->
  generateDeathData_over random t1 numDeaths calls
  = generateDeathData_over random t2 numDeaths calls.
Proof.
  intros Hagree. unfold generateDeathData_over.
  apply (loop_agree random t1 t2 Hagree numDeaths (Z.to_nat (numDeaths - 0))).
  reflexivity.
Qed.

(** The table of the program with every [density] replaced by 1. *)
Definition HOTSPOTS_density_one : list Hotspot :=
  map (fun h => mkHotspot (hx h) (hy h) (radius h) 1 (name h)) HOTSPOTS.

Lemma generateDeathData_ignores_density_witness :
  Forall2 same_but_density HOTSPOTS HOTSPOTS_density_one
  /\ generateDeathData (fun _ => 0) 2 0%nat
     = generateDeathData_over (fun _ => 0) HOTSPOTS_density_one 2 0%nat.
Proof.
  assert (Hagree : Forall2 same_but_density HOTSPOTS HOTSPOTS_density_one).
  { repeat constructor. }
  split; [exact Hagree|].
  exact (generateDeathData_ignores_density (fun _ => 0) HOTSPOTS
           HOTSPOTS_density_one 2 0%nat Hagree).
Defined.


(** ** Properties of the renderer *)

Lemma forEach_bitmap {A} (f : A -> Canvas -> Canvas) (g : A -> Paint) :
  (forall a c, bitmap (f a c) = bitmap c ++ [g a]) ->
  forall arr c, bitmap (forEach arr f c) = bitmap c ++ map g arr.
Proof.
  intros Hf arr. unfold forEach.
  induction arr as [|a arr IH]; intros c; simpl.
  - symmetry. apply app_nil_r.
  - rewrite IH, Hf, <- app_assoc. reflexivity.
Qed.

Lemma forEach_size {A} (f : A -> Canvas -> Canvas) :
  (forall a c, width (f a c) = width c /\ height (f a c) = height c) ->
  forall arr c, width (forEach arr f c) = width c
                /\ height (forEach arr f c) = height c.
Proof.
  intros Hf arr. unfold forEach.
  induction arr as [|a arr IH]; intros c; simpl; [auto|].
  destruct (IH (f a c)) as [-> ->]. apply Hf.
Qed.

Lemma covers_whole (c : Canvas) : covers 0 0 (width c) (height c) c = true.
Proof.
  unfold covers.
  destruct (Rle_dec 0 0); [|lra].
  destruct (Rle_dec (width c) (0 + width c)); [|lra].
  destruct (Rle_dec (height c) (0 + height c)); [|lra].
  reflexivity.
Qed.

Lemma clearRect_whole (c : Canvas) :
  clearRect 0 0 (width c) (height c) c = mkCanvas (width c) (height c) (ctx c) [].
Proof. unfold clearRect. rewrite covers_whole. reflexivity. Qed.

(** The filled circle of a sample and the outline of a hotspot, for the
    scale factors of a render. *)
Definition death_circle (scaleX scaleY : R) (death : Sample) : Paint :=
  PaintFill [mkArc (x death * scaleX) (y death * scaleY) 2 0 (PI * 2)]
            "rgba(255, 0, 0, 0.5)".

Definition hotspot_outline (scaleX scaleY : R) (hotspot : Hotspot) : Paint :=
  PaintStroke [mkArc (hx hotspot * scaleX) (hy hotspot * scaleY)
                     (radius hotspot * scaleX) 0 (PI * 2)]
              "rgba(0, 255, 255, 0.3)" 1.

Lemma remove_nth_last {A} (l : list A) (a : A) :
  nth_error (l ++ [a]) (List.length l) = Some a
  /\ remove_nth (List.length l) (l ++ [a]) = l.
Proof.
  split.
  - rewrite nth_error_app2, Nat.sub_diag by lia. reflexivity.
  - unfold remove_nth. induction l as [|b l IH]; simpl; [reflexivity|].
    simpl in IH. rewrite IH. reflexivity.
Qed.

Section RendererFacts.

Variable unsigned_long : R -> R.

(** The surface a successful load leaves behind. *)
Lemma img_onload_surface (img : Image) (containerWidth : N)
    (deaths0 : list Sample) (st : AppState) (c : Canvas) :
  canvasRef st = Some c ->
  let newWidth := IZR (Z.of_N containerWidth) in
  let newHeight :=
    newWidth / (IZR (Zpos (img_width img)) / IZR (Zpos (img_height img))) in
  let scaleX := newWidth / 800 in
  let scaleY := newHeight / 800 in
  option_map surface
    (canvasRef (img_onload unsigned_long img containerWidth deaths0 st))
  = Some (unsigned_long newWidth, unsigned_long newHeight,
          PaintImage img 0 0 (unsigned_long newWidth) (unsigned_long newHeight)
          :: map (death_circle scaleX scaleY) deaths0
          ++ map (hotspot_outline scaleX scaleY) (hotspots st)).
Proof.
  intros Hc newWidth newHeight scaleX scaleY.
  unfold img_onload. rewrite Hc. cbv zeta. simpl canvasRef.
  fold newWidth newHeight scaleX scaleY.
  set (c0 := set_height unsigned_long newHeight (set_width unsigned_long newWidth c)).
  change (clearRect 0 0 (unsigned_long newWidth) (unsigned_long newHeight) c0)
    with (clearRect 0 0 (width c0) (height c0) c0).
  rewrite (clearRect_whole c0).
  set (c1 := drawImage img 0 0 _ _ _).
  set (c2 := forEach deaths0 _ c1).
  assert (Hd : forall a k, bitmap (draw_death scaleX scaleY a k)
                           = bitmap k ++ [death_circle scaleX scaleY a])
    by reflexivity.
  assert (Hh : forall a k, bitmap (draw_hotspot scaleX scaleY a k)
                           = bitmap k ++ [hotspot_outline scaleX scaleY a])
    by reflexivity.
  assert (Hds : forall a k, width (draw_death scaleX scaleY a k) = width k
                            /\ height (draw_death scaleX scaleY a k) = height k)
    by (intros; split; reflexivity).
  assert (Hhs : forall a k, width (draw_hotspot scaleX scaleY a k) = width k
                            /\ height (draw_hotspot scaleX scaleY a k) = height k)
    by (intros; split; reflexivity).
  unfold option_map, surface.
  destruct (forEach_size _ Hhs (hotspots st) c2) as [-> ->].
  destruct (forEach_size _ Hds deaths0 c1) as [Hw Hht].
  fold c2 in Hw, Hht. rewrite Hw, Hht.
  rewrite (forEach_bitmap _ _ Hh). unfold c2.
  rewrite (forEach_bitmap _ _ Hd). reflexivity.
Qed.

(** The state a failed load leaves behind. *)
Lemma img_onerror_state (st : AppState) (c : Canvas) :
  canvasRef st = Some c ->
  img_onerror st
  = mkApp (hotspots st)
          (Some (mkCanvas (width c) (height c)
                   (mkContext (path (ctx c)) "white" (strokeStyle (ctx c))
                              (lineWidth (ctx c)) "20px Arial")
                   [PaintText fallback_message 10 50 "white" "20px Arial"]))
          (mapLoaded st) (deaths st) (canvasDimensions st) (loading st)
          (console st ++ ["Failed to load Wilderness map image."%string])
          (randomCalls st).
Proof.
  intros Hc. unfold img_onerror. rewrite Hc, clearRect_whole. reflexivity.
Qed.

(** [render] is [drawMap] followed by the callback of the load it started. *)
Lemma render_callback (res : ImageResult) (st : AppState) :
  render unsigned_long res st
  = match res with
    | LoadOk img containerWidth =>
        img_onload unsigned_long img containerWidth (deaths st) st
    | LoadError => img_onerror st
    end.
Proof.
  destruct st as [hs cr ml ds cd ld co rc].
  unfold render, drawMap, complete. simpl.
  destruct cr as [c|]; simpl.
  - destruct (remove_nth_last ld ds) as [-> ->]. reflexivity.
  - replace (nth_error ld (List.length ld)) with (@None (list Sample)).
    + destruct res; reflexivity.
    + symmetry. apply nth_error_None. lia.
Qed.

End RendererFacts.

(** A canvas element as the browser creates it, the map image at its natural
    size and a page on which the component has just been laid out. *)
Definition blank_canvas : Canvas := mkCanvas 300 150 default_context [].

Definition map_image : Image := mkImage WILDERNESS_MAP_URL 800 800.

Definition fresh_page : AppState := initialState (Some blank_canvas).

(** C4. On a successful load the target surface is [targetWidth] (the width
    of the container) by [targetHeight] (that width over the aspect ratio of
    the image); after the background image the renderer paints, for every
    sample in order, a filled circle centred at
    [(x * targetWidth / 800, y * targetHeight / 800)].  In particular on a
    400 by 400 target the sample (800, 800) is centred at (400, 400) and the
    sample (0, 0) at (0, 0). *)
Theorem sample_circle_position :
  (forall (unsigned_long : R -> R) (img : Image) (containerWidth : N)
          (deaths0 : list Sample) (st : AppState) (c : Canvas),
      canvasRef st = Some c ->
      let targetWidth := IZR (Z.of_N containerWidth) in
      let targetHeight :=
        targetWidth / (IZR (Zpos (img_width img)) / IZR (Zpos (img_height img))) in
      exists c' outlines,
        canvasRef (img_onload unsigned_long img containerWidth deaths0 st) = Some c'
        /\ bitmap c'
           = PaintImage img 0 0 (width c') (height c')
             :: map (fun s =>
                       PaintFill [mkArc (x s * targetWidth / 800)
                                        (y s * targetHeight / 800) 2 0 (PI * 2)]
                                 "rgba(255, 0, 0, 0.5)") deaths0
             ++ outlines)
  /\ (forall (unsigned_long : R -> R) (img : Image) (st : AppState) (c : Canvas),
        canvasRef st = Some c ->
        img_width img = img_height img ->
        exists c' outlines,
          canvasRef (img_onload unsigned_long img 400
                       [mkSample 800 800; mkSample 0 0] st) = Some c'
          /\ bitmap c'
             = PaintImage img 0 0 (width c') (height c')
               :: PaintFill [mkArc 400 400 2 0 (PI * 2)] "rgba(255, 0, 0, 0.5)"
               :: PaintFill [mkArc 0 0 2 0 (PI * 2)] "rgba(255, 0, 0, 0.5)"
               :: outlines).
Proof.
  assert (General :
    forall (unsigned_long : R -> R) (img : Image) (containerWidth : N)
           (deaths0 : list Sample) (st : AppState) (c : Canvas),
      canvasRef st = Some c ->
      let targetWidth := IZR (Z.of_N containerWidth) in
      let targetHeight :=
        targetWidth / (IZR (Zpos (img_width img)) / IZR (Zpos (img_height img))) in
      exists c' outlines,
        canvasRef (img_onload unsigned_long img containerWidth deaths0 st) = Some c'
        /\ bitmap c'
           = PaintImage img 0 0 (width c') (height c')
             :: map (fun s =>
                       PaintFill [mkArc (x s * targetWidth / 800)
                                        (y s * targetHeight / 800) 2 0 (PI * 2)]
                                 "rgba(255, 0, 0, 0.5)") deaths0
             ++ outlines).
  { intros ul img cw ds st c Hc tw th.
    pose proof (img_onload_surface ul img cw ds st c Hc) as Hs.
    cbv zeta in Hs. fold tw th in Hs.
    destruct (canvasRef (img_onload ul img cw ds st)) as [c'|]; [|discriminate].
    simpl in Hs. injection Hs as Hw Hh Hb.
    exists c', (map (hotspot_outline (tw / 800) (th / 800)) (hotspots st)).
    split; [reflexivity|].
    rewrite Hb, Hw, Hh. f_equal. f_equal.
    apply map_ext. intros s. unfold death_circle.
    do 3 f_equal; field. }
  split; [exact General|].
  intros ul img st c Hc Hsq.
  destruct (General ul img 400%N [mkSample 800 800; mkSample 0 0] st c Hc)
    as (c' & outlines & Hr & Hb).
  exists c', outlines. split; [exact Hr|].
  rewrite Hb. simpl. rewrite Hsq.
  assert (Hpos : IZR (Zpos (img_height img)) <> 0)
    by (apply not_0_IZR; discriminate).
  repeat f_equal; field; exact Hpos.
Qed.

Lemma sample_circle_position_witness :
  canvasRef fresh_page = Some blank_canvas
  /\ img_width map_image = img_height map_image
  /\ exists c' outlines,
       canvasRef (img_onload (fun r => r) map_image 400
                    [mkSample 800 800; mkSample 0 0] fresh_page) = Some c'
       /\ bitmap c'
          = PaintImage map_image 0 0 (width c') (height c')
            :: PaintFill [mkArc 400 400 2 0 (PI * 2)] "rgba(255, 0, 0, 0.5)"
            :: PaintFill [mkArc 0 0 2 0 (PI * 2)] "rgba(255, 0, 0, 0.5)"
            :: outlines.
Proof.
  split; [reflexivity|]. split; [reflexivity|].
  exact (proj2 sample_circle_position (fun r => r) map_image fresh_page
           blank_canvas eq_refl eq_refl).
Defined.

(** C5. On a successful load the renderer paints last, for every hotspot of
    the table in order, the outline of a circle centred at
    [(hotspot.x * scaleX, hotspot.y * scaleY)] of radius
    [hotspot.radius * scaleX]: the vertical scale factor does not enter the
    radius. *)
Theorem hotspot_outline_radius
    (unsigned_long : R -> R) (img : Image) (containerWidth : N)
    (deaths0 : list Sample) (st : AppState) (c : Canvas) :
  canvasRef st = Some c ->
  let targetWidth := IZR (Z.of_N containerWidth) in
  let targetHeight :=
    targetWidth / (IZR (Zpos (img_width img)) / IZR (Zpos (img_height img))) in
  let scaleX := targetWidth / 800 in
  let scaleY := targetHeight / 800 in
  exists c' before,
    canvasRef (img_onload unsigned_long img containerWidth deaths0 st) = Some c'
    /\ List.length before = S (List.length deaths0)
    /\ bitmap c'
       = before
         ++ map (fun h =>
                   PaintStroke [mkArc (hx h * scaleX) (hy h * scaleY)
                                      (radius h * scaleX) 0 (PI * 2)]
                               "rgba(0, 255, 255, 0.3)" 1) (hotspots st).
Proof.
  intros Hc tw th sx sy.
  pose proof (img_onload_surface unsigned_long img containerWidth deaths0 st c Hc) as Hs.
  cbv zeta in Hs. fold tw th in Hs. fold sx sy in Hs.
  destruct (canvasRef (img_onload unsigned_long img containerWidth deaths0 st))
    as [c'|]; [|discriminate].
  simpl in Hs. injection Hs as Hw Hh Hb.
  exists c', (PaintImage img 0 0 (unsigned_long tw) (unsigned_long th)
              :: map (death_circle sx sy) deaths0).
  split; [reflexivity|]. split; [simpl; rewrite length_map; reflexivity|].
  rewrite Hb. reflexivity.
Qed.

(** An image twice as wide as it is high in a container 800 pixels wide:
    [scaleX = 1] and [scaleY = 1/2]. *)
Definition wide_image : Image := mkImage WILDERNESS_MAP_URL 800 400.

Lemma hotspot_outline_radius_witness :
  canvasRef fresh_page = Some blank_canvas
  /\ exists c' before,
       canvasRef (img_onload (fun r => r) wide_image 800 [] fresh_page) = Some c'
       /\ List.length before = 1%nat
       /\ bitmap c'
          = before
            ++ map (fun h =>
                      PaintStroke
                        [mkArc (hx h * (800 / 800))
                               (hy h * (800 / (800 / 400) / 800))
                               (radius h * (800 / 800)) 0 (PI * 2)]
                        "rgba(0, 255, 255, 0.3)" 1) HOTSPOTS.
Proof.
  split; [reflexivity|].
  exact (hotspot_outline_radius (fun r => r) wide_image 800 [] fresh_page
           blank_canvas eq_refl).
Defined.

(** C7. Running the render pipeline twice in a row with the same outcome of
    the image load (the same image and container width, or a failure both
    times), the same samples and the same table leaves the surface (its
    size and everything painted on it) as one run does. *)
Theorem render_idempotent
    (unsigned_long : R -> R) (res : ImageResult) (st : AppState) :
  option_map surface
    (canvasRef (render unsigned_long res (render unsigned_long res st)))
  = option_map surface (canvasRef (render unsigned_long res st)).
Proof.
  rewrite !render_callback.
  destruct (canvasRef st) as [c|] eqn:Hc.
  - destruct res as [img cw|].
    + set (st1 := img_onload unsigned_long img cw (deaths st) st).
      assert (Hd : deaths st1 = deaths st)
        by (unfold st1, img_onload; rewrite Hc; reflexivity).
      assert (Hh : hotspots st1 = hotspots st)
        by (unfold st1, img_onload; rewrite Hc; reflexivity).
      assert (Hc1 : exists c1, canvasRef st1 = Some c1)
        by (unfold st1, img_onload; rewrite Hc; simpl; eauto).
      destruct Hc1 as [c1 Hc1].
      rewrite (img_onload_surface unsigned_long img cw (deaths st1) st1 c1 Hc1).
      unfold st1 at 3.
      rewrite (img_onload_surface unsigned_long img cw (deaths st) st c Hc).
      rewrite Hd, Hh. reflexivity.
    + rewrite (img_onerror_state st c Hc).
      erewrite img_onerror_state by reflexivity. reflexivity.
  - assert (Hst : match res with
                  | LoadOk img cw => img_onload unsigned_long img cw (deaths st) st
                  | LoadError => img_onerror st
                  end = st).
    { destruct res; [unfold img_onload|unfold img_onerror]; rewrite Hc; reflexivity. }
    rewrite Hst, Hst. reflexivity.
Qed.

(** The first load succeeds, the window is resized, and the load that the
    resize starts fails. *)
Definition loaded_then_failed : AppState :=
  run (fun r => r) (fun _ => 0) (drawMap fresh_page)
      [Completed 0 (LoadOk map_image 400); Resize; Completed 0 LoadError].

(** Against C3 as stated: after a load has succeeded, a failed load leaves
    [mapLoaded] true although the fallback message is on the surface. *)
Lemma mapLoaded_true_after_failure :
  mapLoaded loaded_then_failed = true
  /\ mapLoaded loaded_then_failed <> false
  /\ option_map bitmap (canvasRef loaded_then_failed)
     = Some [PaintText fallback_message 10 50 "white" "20px Arial"].
Proof.
  split; [reflexivity|]. split; [discriminate|].
  unfold loaded_then_failed, run. simpl fold_left.
  remember (handleResize _) as st eqn:Hst.
  assert (Hc : exists c ds, canvasRef st = Some c /\ loading st = [ds]).
  { subst st. eexists. eexists. split; reflexivity. }
  destruct Hc as (c & ds & Hc & Hl).
  unfold complete. rewrite Hl. simpl.
  erewrite img_onerror_state by (simpl; exact Hc). reflexivity.
Qed.

(** C3, amended.  When a load in flight fails, its callback returns (no step
    of it can throw) with the surface at the size it had, blank but for the
    fallback message, which is not empty; [mapLoaded] is left as it was, so
    it is false exactly when it was false before. *)
Theorem load_failure_fallback
    (unsigned_long : R -> R) (k : nat) (deaths0 : list Sample)
    (st : AppState) (c : Canvas) :
  nth_error (loading st) k = Some deaths0 ->
  canvasRef st = Some c ->
  let st' := complete unsigned_long k LoadError st in
  exists c',
    canvasRef st' = Some c'
    /\ width c' = width c
    /\ height c' = height c
    /\ bitmap c' = [PaintText fallback_message 10 50 "white" "20px Arial"]
    /\ fallback_message <> ""%string
    /\ mapLoaded st' = mapLoaded st.
Proof.
  intros Hk Hc st'. unfold st', complete. rewrite Hk.
  erewrite img_onerror_state by (simpl; exact Hc). simpl.
  eexists. split; [reflexivity|]. simpl.
  repeat split; try reflexivity. discriminate.
Qed.

Lemma load_failure_fallback_witness :
  nth_error (loading (drawMap fresh_page)) 0 = Some []
  /\ canvasRef (drawMap fresh_page) = Some blank_canvas
  /\ exists c',
       canvasRef (complete (fun r => r) 0 LoadError (drawMap fresh_page)) = Some c'
       /\ width c' = width blank_canvas
       /\ height c' = height blank_canvas
       /\ bitmap c' = [PaintText fallback_message 10 50 "white" "20px Arial"]
       /\ fallback_message <> ""%string
       /\ mapLoaded (complete (fun r => r) 0 LoadError (drawMap fresh_page))
          = mapLoaded (drawMap fresh_page).
Proof.
  split; [reflexivity|]. split; [reflexivity|].
  exact (load_failure_fallback (fun r => r) 0 [] (drawMap fresh_page)
           blank_canvas eq_refl eq_refl).
Defined.

(** Against C8 as stated: the error callback changes more than the pixels.
    On the fresh page it sets the fill style and the font of the drawing
    context and logs a line to the console, so no choice of pixel contents
    alone turns the state of before into the state of after. *)
Lemma img_onerror_changes_more_than_pixels :
  option_map (fun c => (fillStyle (ctx c), font (ctx c))) (canvasRef fresh_page)
  = Some ("#000000"%string, "10px sans-serif"%string)
  /\ option_map (fun c => (fillStyle (ctx c), font (ctx c)))
       (canvasRef (img_onerror fresh_page))
     = Some ("white"%string, "20px Arial"%string)
  /\ console fresh_page = []
  /\ console (img_onerror fresh_page)
     = ["Failed to load Wilderness map image."%string]
  /\ (forall pixels : list Paint,
        img_onerror fresh_page
        <> mkApp (hotspots fresh_page)
                 (Some (mkCanvas (width blank_canvas) (height blank_canvas)
                                 (ctx blank_canvas) pixels))
                 (mapLoaded fresh_page) (deaths fresh_page)
                 (canvasDimensions fresh_page) (loading fresh_page)
                 (console fresh_page) (randomCalls fresh_page)).
Proof.
  rewrite (img_onerror_state fresh_page blank_canvas eq_refl).
  split; [reflexivity|]. split; [reflexivity|]. split; [reflexivity|].
  split; [reflexivity|].
  intros pixels Heq. simpl in Heq. discriminate Heq.
Qed.

(** C8, amended.  The error callback leaves the canvas at the width and
    height it had and the stored [canvasDimensions], the samples,
    [mapLoaded], the table and the loads in flight as they were, and the
    bitmap holds the fallback message alone.  Besides the pixels it changes
    the drawing context, whose fill style becomes white and whose font
    becomes 20px Arial (path, stroke style and line width are as before),
    and the console, which gains one line. *)
Theorem img_onerror_frame (st : AppState) (c : Canvas) :
  canvasRef st = Some c ->
  exists c',
    canvasRef (img_onerror st) = Some c'
    /\ width c' = width c
    /\ height c' = height c
    /\ canvasDimensions (img_onerror st) = canvasDimensions st
    /\ deaths (img_onerror st) = deaths st
    /\ mapLoaded (img_onerror st) = mapLoaded st
    /\ hotspots (img_onerror st) = hotspots st
    /\ loading (img_onerror st) = loading st
    /\ randomCalls (img_onerror st) = randomCalls st
    /\ bitmap c' = [PaintText fallback_message 10 50 "white" "20px Arial"]
    /\ path (ctx c') = path (ctx c)
    /\ strokeStyle (ctx c') = strokeStyle (ctx c)
    /\ lineWidth (ctx c') = lineWidth (ctx c)
    /\ fillStyle (ctx c') = "white"%string
    /\ font (ctx c') = "20px Arial"%string
    /\ console (img_onerror st)
       = console st ++ ["Failed to load Wilderness map image."%string].
Proof.
  intros Hc. rewrite (img_onerror_state st c Hc). simpl.
  eexists. split; [reflexivity|]. simpl. repeat split; reflexivity.
Qed.

(** A surface on which a load has succeeded, then a failure. *)
Definition loaded_page : AppState :=
  render (fun r => r) (LoadOk map_image 400) fresh_page.

Lemma img_onerror_frame_witness :
  exists c c',
    canvasRef loaded_page = Some c
    /\ canvasRef (img_onerror loaded_page) = Some c'
    /\ width c' = width c
    /\ height c' = height c
    /\ canvasDimensions (img_onerror loaded_page) = canvasDimensions loaded_page
    /\ deaths (img_onerror loaded_page) = deaths loaded_page
    /\ bitmap c' = [PaintText fallback_message 10 50 "white" "20px Arial"]
    /\ fillStyle (ctx c') = "white"%string
    /\ font (ctx c') = "20px Arial"%string
    /\ console (img_onerror loaded_page)
       = console loaded_page ++ ["Failed to load Wilderness map image."%string].
Proof.
  assert (Hc : exists c, canvasRef loaded_page = Some c).
  { eexists. reflexivity. }
  destruct Hc as [c Hc].
  destruct (img_onerror_frame loaded_page c Hc)
    as (c' & Hc' & Hw & Hh & Hd & Hs & _ & _ & _ & _ & Hb & _ & _ & _
        & Hf & Hfo & Hco).
  exists c, c'. repeat split; assumption.
Defined.

(** ** The hotspot table and the resize handler *)

Definition valid_hotspot (h : Hotspot) : Prop :=
  0 <= hx h <= 800
  /\ 0 <= hy h <= 800
  /\ 0 < radius h
  /\ 0 < density h <= 1
  /\ name h <> ""%string.

Section Transitions.

Variable unsigned_long : R -> R.
Variable random : nat -> R.

Lemma drawMap_hotspots (st : AppState) : hotspots (drawMap st) = hotspots st.
Proof. unfold drawMap. destruct (canvasRef st); reflexivity. Qed.

Lemma drawMap_mapLoaded (st : AppState) : mapLoaded (drawMap st) = mapLoaded st.
Proof. unfold drawMap. destruct (canvasRef st); reflexivity. Qed.

Lemma step_hotspots (st : AppState) (e : Event) :
  hotspots (step unsigned_long random st e) = hotspots st.
Proof.
  destruct e as [| |k res]; simpl.
  - unfold mount.
    destruct (generateDeathData_over _ _ _ _) as [[ds calls]|]; [|reflexivity].
    rewrite drawMap_hotspots. simpl. apply drawMap_hotspots.
  - unfold handleResize. destruct (mapLoaded st); [apply drawMap_hotspots|reflexivity].
  - unfold complete. destruct (nth_error _ _); [|reflexivity].
    destruct res; [unfold img_onload|unfold img_onerror]; simpl;
      destruct (canvasRef st); reflexivity.
Qed.

Lemma run_hotspots (events : list Event) :
  forall st, hotspots (run unsigned_long random st events) = hotspots st.
Proof.
  unfold run. induction events as [|e events IH]; intros st; simpl; [reflexivity|].
  rewrite IH. apply step_hotspots.
Qed.

(** An event other than the success of a load. *)
Definition not_a_success (e : Event) : bool :=
  match e with
  | Completed _ (LoadOk _ _) => false
  | _ => true
  end.

Definition is_resize (e : Event) : bool :=
  match e with
  | Resize => true
  | _ => false
  end.

Lemma step_mapLoaded_false (st : AppState) (e : Event) :
  mapLoaded st = false -> not_a_success e = true ->
  mapLoaded (step unsigned_long random st e) = false.
Proof.
  intros Hm He. destruct e as [| |k res]; simpl.
  - unfold mount.
    destruct (generateDeathData_over _ _ _ _) as [[ds calls]|]; [|exact Hm].
    rewrite drawMap_mapLoaded. simpl. rewrite drawMap_mapLoaded. exact Hm.
  - unfold handleResize. rewrite Hm. exact Hm.
  - destruct res as [img cw|]; [discriminate|].
    unfold complete. destruct (nth_error _ _); [|exact Hm].
    unfold img_onerror. simpl. destruct (canvasRef st); exact Hm.
Qed.

End Transitions.

(** C9. The table has exactly five entries, each with its centre in
    [[0,800] x [0,800]], a positive radius, a density in [(0, 1]] and a
    non-empty name; and no transition of the page (mount, resize, success or
    failure of a load) changes the array: after any sequence of events it is
    the table of static initialisation. *)
Theorem HOTSPOTS_fixed_and_valid :
  List.length HOTSPOTS = 5%nat
  /\ Forall valid_hotspot HOTSPOTS
  /\ (forall (unsigned_long : R -> R) (random : nat -> R)
             (canvas : option Canvas) (events : list Event),
        hotspots (run unsigned_long random (initialState canvas) events)
        = HOTSPOTS).
Proof.
  split; [reflexivity|]. split.
  - unfold HOTSPOTS, valid_hotspot.
    repeat constructor; simpl; try lra; discriminate.
  - intros ul random canvas events. rewrite run_hotspots. reflexivity.
Qed.

(** C10. While [mapLoaded] is false the resize handler does nothing: the
    state, and with it the surface and the loads in flight, is as before, so
    no redraw is started; when [mapLoaded] is true it calls [drawMap].
    Hence in any sequence of events without a successful load, from a state
    where [mapLoaded] is false, the resize events can be left out. *)
Theorem resize_ignored_until_loaded
    (unsigned_long : R -> R) (random : nat -> R) (st : AppState) :
  mapLoaded st = false ->
  handleResize st = st
  /\ step unsigned_long random st Resize = st
  /\ (forall st1, mapLoaded st1 = true -> handleResize st1 = drawMap st1)
  /\ (forall events,
        forallb not_a_success events = true ->
        run unsigned_long random st events
        = run unsigned_long random st
            (filter (fun e => negb (is_resize e)) events)).
Proof.
  intros Hm.
  assert (Hres : forall s, mapLoaded s = false -> handleResize s = s)
    by (intros s Hs; unfold handleResize; rewrite Hs; reflexivity).
  split; [apply Hres, Hm|]. split; [apply Hres, Hm|]. split.
  - intros st1 H1. unfold handleResize. rewrite H1. reflexivity.
  - intros events. revert st Hm. unfold run.
    induction events as [|e events IH]; intros st Hm Hev; simpl; [reflexivity|].
    simpl in Hev. apply andb_prop in Hev. destruct Hev as [He Hev].
    destruct e as [| |k res]; simpl.
    + apply IH; [|exact Hev].
      apply (step_mapLoaded_false unsigned_long random st Mount Hm He).
    + rewrite (Hres st Hm). apply IH; assumption.
    + apply IH; [|exact Hev].
      apply (step_mapLoaded_false unsigned_long random st (Completed k res) Hm He).
Qed.

(** A resize while the first load is still in flight, and one after that
    load has failed. *)
Lemma resize_ignored_until_loaded_witness :
  mapLoaded (drawMap fresh_page) = false
  /\ handleResize (drawMap fresh_page) = drawMap fresh_page
  /\ run (fun r => r) (fun _ => 0) (drawMap fresh_page)
         [Resize; Completed 0 LoadError; Resize]
     = run (fun r => r) (fun _ => 0) (drawMap fresh_page)
         [Completed 0 LoadError].
Proof.
  assert (Hm : mapLoaded (drawMap fresh_page) = false) by reflexivity.
  destruct (resize_ignored_until_loaded (fun r => r) (fun _ => 0)
              (drawMap fresh_page) Hm) as (H1 & _ & _ & H4).
  split; [exact Hm|]. split; [exact H1|].
  exact (H4 [Resize; Completed 0 LoadError; Resize] eq_refl).
Defined.


(** * Further properties of the generator *)

Section GeneratorRuns.

Variable random : nat -> R.
Variable table : list Hotspot.

(** A turn of the loop that returns has made three or four calls of
    [Math.random()]. *)
Lemma loop_body_calls (calls calls' : nat) (d : Sample) :
  loop_body random table calls = Some (d, calls') ->
  (calls + 3 <= calls' <= calls + 4)%nat.
Proof.
  destruct (Rlt_dec (random calls) 0.8) as [Hp|Hp].
  - destruct (chosen random table calls) as [h|] eqn:Hh.
    + rewrite (loop_body_hotspot random table calls h Hp Hh).
      intros [= _ <-]. lia.
    + rewrite (loop_body_undefined random table calls Hp Hh). discriminate.
  - rewrite (loop_body_anywhere random table calls Hp).
    intros [= _ <-]. lia.
Qed.

(** What a loop that returns has done, whatever the draws were. *)
Lemma loop_returns (numDeaths : Z) (n : nat) :
  forall (i : Z) (ds out : list Sample) (calls calls' : nat),
    n = Z.to_nat (numDeaths - i) ->
    loop random table numDeaths i ds calls = Some (out, calls') ->
    exists new,
      out = ds ++ new
      /\ List.length new = n
      /\ (calls + 3 * n <= calls' <= calls + 4 * n)%nat.
Proof.
  induction n as [|n IH]; intros i ds out calls calls' Hn; rewrite loop_turn;
    destruct (Z_lt_dec i numDeaths); try lia.
  - intros [= <- <-]. exists []. rewrite app_nil_r. repeat split; simpl; lia.
  - destruct (loop_body random table calls) as [[d calls1]|] eqn:Hbody;
      [|discriminate].
    intros Hloop.
    destruct (IH (i + 1)%Z (ds ++ [d]) out calls1 calls' ltac:(lia) Hloop)
      as (new & -> & Hlen & Hcalls).
    pose proof (loop_body_calls calls calls1 d Hbody) as Hc.
    exists (d :: new). rewrite <- app_assoc. simpl.
    repeat split; lia.
Qed.

(** The loop over [numDeaths - i] turns is the loop from 0 with an empty
    array, its samples appended to those already pushed. *)
Lemma loop_shift (n : nat) :
  forall (numDeaths i numDeaths' i' : Z) (ds : list Sample) (calls : nat),
    n = Z.to_nat (numDeaths - i) ->
    n = Z.to_nat (numDeaths' - i') ->
    loop random table numDeaths i ds calls
    = match loop random table numDeaths' i' [] calls with
      | None => None
      | Some (new, calls') => Some (ds ++ new, calls')
      end.
Proof.
  induction n as [|n IH]; intros nd i nd' i' ds calls Hn Hn';
    rewrite (loop_turn random table nd), (loop_turn random table nd');
    destruct (Z_lt_dec i nd); destruct (Z_lt_dec i' nd'); try lia.
  - rewrite app_nil_r. reflexivity.
  - destruct (loop_body random table calls) as [[d calls1]|]; [|reflexivity].
    rewrite (IH nd (i + 1)%Z nd' (i' + 1)%Z (ds ++ [d]) calls1) by lia.
    rewrite (IH nd' (i' + 1)%Z nd' (i' + 1)%Z ([] ++ [d]) calls1) by lia.
    destruct (loop random table nd' (i' + 1) [] calls1) as [[new calls2]|];
      [|reflexivity].
    simpl. rewrite <- app_assoc. reflexivity.
Qed.

Lemma loop_split (n m : Z) (k : nat) :
  (0 <= n)%Z ->
  forall (i : Z) (ds : list Sample) (calls : nat),
    k = Z.to_nat (m - i) -> (i <= m)%Z ->
    loop random table (m + n) i ds calls
    = match loop random table m i ds calls with
      | None => None
      | Some (ds1, calls1) =>
          match loop random table n 0 [] calls1 with
          | None => None
          | Some (ds2, calls2) => Some (ds1 ++ ds2, calls2)
          end
      end.
Proof.
  intros Hn. induction k as [|k IH]; intros i ds calls Hk Hi.
  - rewrite (loop_turn random table m).
    destruct (Z_lt_dec i m); [lia|].
    apply (loop_shift (Z.to_nat n)); lia.
  - rewrite (loop_turn random table (m + n)), (loop_turn random table m).
    destruct (Z_lt_dec i (m + n)); destruct (Z_lt_dec i m); try lia.
    destruct (loop_body random table calls) as [[d calls1]|]; [|reflexivity].
    apply IH; lia.
Qed.

End GeneratorRuns.

(** X1. For a count that is zero or negative the loop condition fails at
    once: the generator returns the empty array and calls [Math.random()]
    not even once, whatever the table. *)
Theorem generateDeathData_nonpositive
    (random : nat -> R) (table : list Hotspot) (numDeaths : Z) (calls : nat) :
  (numDeaths <= 0)%Z ->
  generateDeathData_over random table numDeaths calls = Some ([], calls).
Proof.
  intros Hn. unfold generateDeathData_over. rewrite loop_turn.
  destruct (Z_lt_dec 0 numDeaths); [lia|reflexivity].
Qed.

Lemma generateDeathData_nonpositive_witness :
  (-3 <= 0)%Z
  /\ generateDeathData (fun _ => 0) (-3) 7%nat = Some ([], 7%nat).
Proof.
  assert (Hn : (-3 <= 0)%Z) by lia.
  split; [exact Hn|].
  exact (generateDeathData_nonpositive (fun _ => 0) HOTSPOTS (-3) 7%nat Hn).
Defined.

(** X2. A run of the generator that returns [n] samples has called
    [Math.random()] at least [3 n] and at most [4 n] times: three calls for a
    sample anywhere on the map, four for a sample near a hotspot. *)
Theorem generateDeathData_calls
    (random : nat -> R) (table : list Hotspot) (numDeaths : Z)
    (calls calls' : nat) (ds : list Sample) :
  generateDeathData_over random table numDeaths calls = Some (ds, calls') ->
  (calls + 3 * List.length ds <= calls' <= calls + 4 * List.length ds)%nat.
Proof.
  intros Hrun. unfold generateDeathData_over in Hrun.
  destruct (loop_returns random table numDeaths (Z.to_nat (numDeaths - 0))
              0%Z [] ds calls calls' eq_refl Hrun) as (new & -> & Hlen & Hcalls).
  simpl. rewrite Hlen. exact Hcalls.
Qed.

Lemma generateDeathData_calls_witness :
  generateDeathData (fun _ => 0) 2 0%nat
  = Some ([mkSample 150 700; mkSample 150 700], 8%nat)
  /\ (0 + 3 * 2 <= 8 <= 0 + 4 * 2)%nat.
Proof.
  split; [exact generateDeathData_zero_draws|].
  exact (generateDeathData_calls (fun _ => 0) HOTSPOTS 2 0%nat 8%nat
           [mkSample 150 700; mkSample 150 700] generateDeathData_zero_draws).
Defined.

(** X3. Over an empty table the first turn that goes for a hotspot throws:
    [HOTSPOTS[0]] is [undefined] and reading its [radius] is a [TypeError],
    so the generator returns nothing at all. *)
Theorem generateDeathData_empty_table
    (random : nat -> R) (numDeaths : Z) (calls : nat) :
  (0 < numDeaths)%Z ->
  random calls < 0.8 ->
  generateDeathData_over random [] numDeaths calls = None.
Proof.
  intros Hn Hp. unfold generateDeathData_over. rewrite loop_turn.
  destruct (Z_lt_dec 0 numDeaths); [|lia].
  rewrite (loop_body_undefined random [] calls Hp); [reflexivity|].
  unfold chosen, elem_at.
  destruct (_ <? 0)%Z; [reflexivity|].
  destruct (Z.to_nat _); reflexivity.
Qed.

Lemma generateDeathData_empty_table_witness :
  (0 < 1)%Z
  /\ generateDeathData_over (fun _ => 0) [] 1 0%nat = None.
Proof.
  assert (Hn : (0 < 1)%Z) by lia.
  assert (Hp : (fun _ : nat => 0) 0%nat < 0.8) by (simpl; lra).
  split; [exact Hn|].
  exact (generateDeathData_empty_table (fun _ => 0) 1 0%nat Hn Hp).
Defined.

(** X5. Generating [m + n] samples is generating [m] and then, from where
    the random source stands, [n] more: the arrays are concatenated, and a
    throw in either part is a throw of the whole. *)
Theorem generateDeathData_append
    (random : nat -> R) (table : list Hotspot) (m n : Z) (calls : nat) :
  (0 <= m)%Z ->
  (0 <= n)%Z ->
  generateDeathData_over random table (m + n) calls
  = match generateDeathData_over random table m calls with
    | None => None
    | Some (ds1, calls1) =>
        match generateDeathData_over random table n calls1 with
        | None => None
        | Some (ds2, calls2) => Some (ds1 ++ ds2, calls2)
        end
    end.
Proof.
  intros Hm Hn. unfold generateDeathData_over.
  apply (loop_split random table n m (Z.to_nat (m - 0))); [exact Hn|reflexivity|exact Hm].
Qed.

Lemma generateDeathData_append_witness :
  (0 <= 2)%Z /\ (0 <= 3)%Z
  /\ generateDeathData (fun _ => 0) (2 + 3) 0%nat
     = match generateDeathData (fun _ => 0) 2 0%nat with
       | None => None
       | Some (ds1, calls1) =>
           match generateDeathData (fun _ => 0) 3 calls1 with
           | None => None
           | Some (ds2, calls2) => Some (ds1 ++ ds2, calls2)
           end
       end.
Proof.
  assert (Hm : (0 <= 2)%Z) by lia.
  assert (Hn : (0 <= 3)%Z) by lia.
  split; [exact Hm|]. split; [exact Hn|].
  exact (generateDeathData_append (fun _ => 0) HOTSPOTS 2 3 0%nat Hm Hn).
Defined.

(** The disk of a hotspot lies on the map. *)
Definition disk_on_map (h : Hotspot) : Prop :=
  0 <= radius h
  /\ 0 <= hx h - radius h /\ hx h + radius h <= 800
  /\ 0 <= hy h - radius h /\ hy h + radius h <= 800.

Lemma HOTSPOTS_disks_on_map : Forall disk_on_map HOTSPOTS.
Proof.
  unfold HOTSPOTS, disk_on_map. repeat constructor; simpl; lra.
Qed.

Lemma elem_at_In {A} (arr : list A) (i : Z) (a : A) :
  elem_at arr i = Some a -> In a arr.
Proof.
  unfold elem_at. destruct (i <? 0)%Z; [discriminate|].
  apply nth_error_In.
Qed.

(** A product of a length in [[0, rad]] and a cosine or sine stays within
    [rad] of zero. *)
Lemma scaled_unit_bound (rad r t : R) :
  0 <= r <= rad -> -1 <= t <= 1 -> - rad <= r * t <= rad.
Proof. intros Hr Ht. nra. Qed.

(** X4. With the table of the program the clamp never moves a sample.  A
    sample near a hotspot is the point of the disk itself, at most [radius]
    away from the centre of a hotspot of the table; a sample anywhere is
    [(a * 800, b * 800)], short of the right and bottom edges. *)
Theorem samples_need_no_clamping (random : nat -> R) (calls : nat) :
  unit_draws random ->
  exists d calls',
    loop_body random HOTSPOTS calls = Some (d, calls')
    /\ (random calls < 0.8 ->
        exists h,
          In h HOTSPOTS
          /\ (x d, y d) = disk_point random h calls
          /\ (x d - hx h) * (x d - hx h) + (y d - hy h) * (y d - hy h)
             <= radius h * radius h)
    /\ (~ random calls < 0.8 ->
        x d = random (1 + calls)%nat * 800
        /\ y d = random (2 + calls)%nat * 800
        /\ x d < 800 /\ y d < 800).
Proof.
  intros Hr.
  destruct (Rlt_dec (random calls) 0.8) as [Hp|Hp].
  - destruct (chosen_defined random HOTSPOTS calls HOTSPOTS_nonempty Hr) as [h Hh].
    assert (Hin : In h HOTSPOTS) by (exact (elem_at_In _ _ _ Hh)).
    pose proof (proj1 (Forall_forall _ _) HOTSPOTS_disks_on_map h Hin)
      as (Hrad & Hx0 & Hx1 & Hy0 & Hy1).
    rewrite (loop_body_hotspot random HOTSPOTS calls h Hp Hh).
    do 2 eexists. split; [reflexivity|]. split; [|contradiction].
    intros _. exists h. split; [exact Hin|].
    unfold disk_point. cbv zeta. simpl fst. simpl snd. simpl x. simpl y.
    set (theta := random (S (S calls)) * 2 * PI).
    set (v := random (S (S (S calls)))).
    assert (Hv : 0 <= v < 1) by apply Hr.
    assert (Hs : 0 <= sqrt v <= 1).
    { split; [apply sqrt_pos|].
      rewrite <- sqrt_1. apply sqrt_le_1_alt. lra. }
    assert (Hlen : 0 <= radius h * sqrt v <= radius h) by nra.
    pose proof (scaled_unit_bound _ _ _ Hlen (COS_bound theta)) as Hc.
    pose proof (scaled_unit_bound _ _ _ Hlen (SIN_bound theta)) as Hsn.
    unfold mapWidth, mapHeight.
    rewrite !clamp_inside by lra.
    split; [reflexivity|].
    assert (Hsq : sqrt v * sqrt v = v) by (apply sqrt_sqrt; lra).
    pose proof (sin2_cos2 theta) as Hone. unfold Rsqr in Hone.
    replace ((hx h + radius h * sqrt v * cos theta - hx h)
             * (hx h + radius h * sqrt v * cos theta - hx h)
             + (hy h + radius h * sqrt v * sin theta - hy h)
               * (hy h + radius h * sqrt v * sin theta - hy h))
      with (radius h * radius h * (sqrt v * sqrt v)
            * (sin theta * sin theta + cos theta * cos theta)) by ring.
    rewrite Hsq, Hone. nra.
  - rewrite (loop_body_anywhere random HOTSPOTS calls Hp).
    do 2 eexists. split; [reflexivity|]. split; [contradiction|].
    intros _. simpl.
    pose proof (Hr (1 + calls)%nat) as Ha.
    pose proof (Hr (2 + calls)%nat) as Hb.
    unfold mapWidth, mapHeight.
    rewrite !clamp_inside by (simpl in Ha, Hb; lra).
    simpl in Ha, Hb. repeat split; lra.
Qed.

(** The first draw 0.5 goes for a hotspot; the later draws 0.5 select the
    third hotspot. *)
Lemma samples_need_no_clamping_witness :
  unit_draws (fun _ => 0.5)
  /\ exists d calls',
       loop_body (fun _ => 0.5) HOTSPOTS 0%nat = Some (d, calls')
       /\ exists h,
            In h HOTSPOTS
            /\ (x d - hx h) * (x d - hx h) + (y d - hy h) * (y d - hy h)
               <= radius h * radius h.
Proof.
  assert (Hr : unit_draws (fun _ => 0.5)) by (intros n; lra).
  split; [exact Hr|].
  destruct (samples_need_no_clamping (fun _ => 0.5) 0%nat Hr)
    as (d & calls' & Hbody & Hhot & _).
  exists d, calls'. split; [exact Hbody|].
  assert (Hp : (fun _ : nat => 0.5) 0%nat < 0.8) by (simpl; lra).
  destruct (Hhot Hp) as (h & Hin & _ & Hdist).
  exists h. split; assumption.
Defined.


(** * Further properties of the renderer *)

Section RenderRuns.

Variable unsigned_long : R -> R.

(** The state variables after a successful load. *)
Lemma img_onload_state (img : Image) (containerWidth : N)
    (deaths0 : list Sample) (st : AppState) (c : Canvas) :
  canvasRef st = Some c ->
  let st' := img_onload unsigned_long img containerWidth deaths0 st in
  mapLoaded st' = true
  /\ deaths st' = deaths st
  /\ hotspots st' = hotspots st
  /\ loading st' = loading st
  /\ console st' = console st
  /\ randomCalls st' = randomCalls st
  /\ canvasDimensions st'
     = mkDimensions (IZR (Z.of_N containerWidth))
         (IZR (Z.of_N containerWidth)
          / (IZR (Zpos (img_width img)) / IZR (Zpos (img_height img)))).
Proof.
  intros Hc st'. unfold st', img_onload. rewrite Hc. simpl.
  repeat split; reflexivity.
Qed.

Lemma positive_IZR (p : positive) : 0 < IZR (Zpos p).
Proof. apply IZR_lt. lia. Qed.

Lemma container_IZR (n : N) : 0 <= IZR (Z.of_N n).
Proof. apply IZR_le. lia. Qed.

(** The height computed for a container and an image. *)
Lemma newHeight_nonneg (img : Image) (containerWidth : N) :
  0 <= IZR (Z.of_N containerWidth)
       / (IZR (Zpos (img_width img)) / IZR (Zpos (img_height img))).
Proof.
  pose proof (positive_IZR (img_width img)) as Hw.
  pose proof (positive_IZR (img_height img)) as Hh.
  pose proof (container_IZR containerWidth) as Hc.
  apply Rmult_le_pos; [exact Hc|].
  apply Rlt_le, Rinv_0_lt_compat. apply Rdiv_lt_0_compat; assumption.
Qed.

End RenderRuns.

(** X6. A successful load sets [mapLoaded] and stores dimensions in the
    proportions of the image: the stored width is the width of the
    container and [height * img.width = width * img.height].  The canvas
    itself gets these two numbers through its conversion to an integer. *)
Theorem img_onload_keeps_aspect_ratio
    (unsigned_long : R -> R) (img : Image) (containerWidth : N)
    (deaths0 : list Sample) (st : AppState) (c : Canvas) :
  canvasRef st = Some c ->
  let st' := img_onload unsigned_long img containerWidth deaths0 st in
  let dims := canvasDimensions st' in
  mapLoaded st' = true
  /\ dim_width dims = IZR (Z.of_N containerWidth)
  /\ dim_height dims * IZR (Zpos (img_width img))
     = dim_width dims * IZR (Zpos (img_height img))
  /\ 0 <= dim_height dims
  /\ option_map (fun c' => (width c', height c')) (canvasRef st')
     = Some (unsigned_long (dim_width dims), unsigned_long (dim_height dims)).
Proof.
  intros Hc st' dims.
  destruct (img_onload_state unsigned_long img containerWidth deaths0 st c Hc)
    as (Hm & _ & _ & _ & _ & _ & Hd).
  fold st' in Hm, Hd. unfold dims. rewrite Hd. simpl.
  pose proof (positive_IZR (img_width img)) as Hw.
  pose proof (positive_IZR (img_height img)) as Hh.
  split; [exact Hm|]. split; [reflexivity|]. split; [field; lra|].
  split; [apply newHeight_nonneg|].
  pose proof (img_onload_surface unsigned_long img containerWidth deaths0 st c Hc)
    as Hs.
  cbv zeta in Hs. fold st' in Hs.
  destruct (canvasRef st') as [c'|]; [|discriminate].
  simpl in Hs. injection Hs as Hwd Hht _. simpl. rewrite Hwd, Hht. reflexivity.
Qed.

Lemma img_onload_keeps_aspect_ratio_witness :
  canvasRef fresh_page = Some blank_canvas
  /\ let st' := img_onload (fun r => r) wide_image 600 [] fresh_page in
     dim_width (canvasDimensions st') = 600
     /\ dim_height (canvasDimensions st') * 800
        = dim_width (canvasDimensions st') * 400.
Proof.
  split; [reflexivity|].
  destruct (img_onload_keeps_aspect_ratio (fun r => r) wide_image 600 []
              fresh_page blank_canvas eq_refl) as (_ & Hw & Hr & _).
  split; [exact Hw|exact Hr].
Defined.

(** X7. What a successful load leaves on the surface depends on the image,
    the width of the container, the samples the callback holds and the
    table alone: not on the size the canvas had, nor on what was painted on
    it (an earlier map, the fallback message), nor on any state variable. *)
Theorem img_onload_forgets_history
    (unsigned_long : R -> R) (img : Image) (containerWidth : N)
    (deaths0 : list Sample) (st1 st2 : AppState) (c1 c2 : Canvas) :
  canvasRef st1 = Some c1 ->
  canvasRef st2 = Some c2 ->
  hotspots st1 = hotspots st2 ->
  option_map surface
    (canvasRef (img_onload unsigned_long img containerWidth deaths0 st1))
  = option_map surface
      (canvasRef (img_onload unsigned_long img containerWidth deaths0 st2)).
Proof.
  intros H1 H2 Hh.
  rewrite (img_onload_surface unsigned_long img containerWidth deaths0 st1 c1 H1).
  rewrite (img_onload_surface unsigned_long img containerWidth deaths0 st2 c2 H2).
  rewrite Hh. reflexivity.
Qed.

(** The fresh page, and the page after a failed first load. *)
Definition failed_page : AppState := render (fun r => r) LoadError fresh_page.

Lemma img_onload_forgets_history_witness :
  option_map bitmap (canvasRef failed_page)
  = Some [PaintText fallback_message 10 50 "white" "20px Arial"]
  /\ option_map surface
       (canvasRef (img_onload (fun r => r) map_image 400 [] fresh_page))
     = option_map surface
         (canvasRef (img_onload (fun r => r) map_image 400 [] failed_page)).
Proof.
  assert (Hc : exists c2, canvasRef failed_page = Some c2
                          /\ bitmap c2
                             = [PaintText fallback_message 10 50 "white" "20px Arial"]).
  { unfold failed_page. rewrite render_callback.
    rewrite (img_onerror_state fresh_page blank_canvas eq_refl).
    eexists. split; reflexivity. }
  destruct Hc as (c2 & Hc2 & Hb).
  split; [rewrite Hc2; simpl; rewrite Hb; reflexivity|].
  apply (img_onload_forgets_history (fun r => r) map_image 400 [] fresh_page
           failed_page blank_canvas c2 eq_refl Hc2).
  unfold failed_page. rewrite render_callback.
  rewrite (img_onerror_state fresh_page blank_canvas eq_refl). reflexivity.
Defined.

(** X14. Every sample on the map is painted on the surface: for samples
    within [[0,800] x [0,800]] the centre of each circle lies between 0 and
    the computed width, and between 0 and the computed height. *)
Theorem sample_circles_on_surface
    (unsigned_long : R -> R) (img : Image) (containerWidth : N)
    (deaths0 : list Sample) (st : AppState) (c : Canvas) :
  canvasRef st = Some c ->
  Forall in_bounds deaths0 ->
  let newWidth := IZR (Z.of_N containerWidth) in
  let newHeight :=
    newWidth / (IZR (Zpos (img_width img)) / IZR (Zpos (img_height img))) in
  exists c',
    canvasRef (img_onload unsigned_long img containerWidth deaths0 st) = Some c'
    /\ forall s, In s deaths0 ->
         exists a,
           In (PaintFill [a] "rgba(255, 0, 0, 0.5)") (bitmap c')
           /\ arc_x a = x s * (newWidth / 800)
           /\ arc_y a = y s * (newHeight / 800)
           /\ 0 <= arc_x a <= newWidth
           /\ 0 <= arc_y a <= newHeight.
Proof.
  intros Hc Hall newWidth newHeight.
  pose proof (img_onload_surface unsigned_long img containerWidth deaths0 st c Hc)
    as Hs.
  cbv zeta in Hs. fold newWidth newHeight in Hs.
  destruct (canvasRef (img_onload unsigned_long img containerWidth deaths0 st))
    as [c'|]; [|discriminate].
  simpl in Hs. injection Hs as _ _ Hb.
  exists c'. split; [reflexivity|].
  intros s Hin.
  exists (mkArc (x s * (newWidth / 800)) (y s * (newHeight / 800)) 2 0 (PI * 2)).
  split.
  - rewrite Hb. right. apply in_or_app. left.
    apply (in_map (death_circle (newWidth / 800) (newHeight / 800)) deaths0 s Hin).
  - simpl.
    pose proof (proj1 (Forall_forall _ _) Hall s Hin) as [Hx Hy].
    pose proof (container_IZR containerWidth) as Hw. fold newWidth in Hw.
    pose proof (newHeight_nonneg img containerWidth) as Hh. fold newWidth newHeight in Hh.
    repeat split; try reflexivity; nra.
Qed.

Lemma sample_circles_on_surface_witness :
  canvasRef fresh_page = Some blank_canvas
  /\ Forall in_bounds [mkSample 800 0]
  /\ exists c',
       canvasRef (img_onload (fun r => r) wide_image 600 [mkSample 800 0]
                    fresh_page) = Some c'
       /\ exists a,
            In (PaintFill [a] "rgba(255, 0, 0, 0.5)") (bitmap c')
            /\ arc_x a = 800 * (600 / 800).
Proof.
  assert (Hb : Forall in_bounds [mkSample 800 0]).
  { repeat constructor; simpl; lra. }
  split; [reflexivity|]. split; [exact Hb|].
  destruct (sample_circles_on_surface (fun r => r) wide_image 600
              [mkSample 800 0] fresh_page blank_canvas eq_refl Hb)
    as (c' & Hc' & Hall).
  exists c'. split; [exact Hc'|].
  destruct (Hall (mkSample 800 0) (or_introl eq_refl)) as (a & Hin & Hx & _).
  exists a. split; [exact Hin|exact Hx].
Defined.


(** * Further properties of the component *)

(** The overlay of the JSX: [{!mapLoaded && <div>Loading Wilderness map...</div>}],
    laid over the canvas. *)
Definition loading_overlay (st : AppState) : option string :=
  if negb (mapLoaded st) then Some "Loading Wilderness map..."%string else None.

Definition is_mount (e : Event) : bool :=
  match e with
  | Mount => true
  | _ => false
  end.

Section ComponentRuns.

Variable unsigned_long : R -> R.
Variable random : nat -> R.

(** The successful completion of a load in flight. *)
Lemma complete_ok (k : nat) (img : Image) (containerWidth : N)
    (deaths0 : list Sample) (st : AppState) (c : Canvas) :
  nth_error (loading st) k = Some deaths0 ->
  canvasRef st = Some c ->
  let st' := complete unsigned_long k (LoadOk img containerWidth) st in
  let newWidth := IZR (Z.of_N containerWidth) in
  let newHeight :=
    newWidth / (IZR (Zpos (img_width img)) / IZR (Zpos (img_height img))) in
  let scaleX := newWidth / 800 in
  let scaleY := newHeight / 800 in
  option_map surface (canvasRef st')
  = Some (unsigned_long newWidth, unsigned_long newHeight,
          PaintImage img 0 0 (unsigned_long newWidth) (unsigned_long newHeight)
          :: map (death_circle scaleX scaleY) deaths0
          ++ map (hotspot_outline scaleX scaleY) (hotspots st))
  /\ mapLoaded st' = true
  /\ deaths st' = deaths st
  /\ hotspots st' = hotspots st
  /\ loading st' = remove_nth k (loading st).
Proof.
  intros Hk Hc st' newWidth newHeight scaleX scaleY.
  unfold st', complete. rewrite Hk.
  set (st0 := mkApp (hotspots st) (canvasRef st) (mapLoaded st) (deaths st)
                    (canvasDimensions st) (remove_nth k (loading st))
                    (console st) (randomCalls st)).
  assert (Hc0 : canvasRef st0 = Some c) by exact Hc.
  split; [exact (img_onload_surface unsigned_long img containerWidth deaths0 st0 c Hc0)|].
  destruct (img_onload_state unsigned_long img containerWidth deaths0 st0 c Hc0)
    as (Hm & Hd & Hh & Hl & _).
  repeat split; assumption.
Qed.

Lemma step_mapLoaded_true (st : AppState) (e : Event) :
  mapLoaded st = true -> mapLoaded (step unsigned_long random st e) = true.
Proof.
  intros Hm. destruct e as [| |k res]; simpl.
  - unfold mount.
    destruct (generateDeathData_over _ _ _ _) as [[ds calls]|]; [|exact Hm].
    rewrite drawMap_mapLoaded. simpl. rewrite drawMap_mapLoaded. exact Hm.
  - unfold handleResize. rewrite Hm. rewrite drawMap_mapLoaded. exact Hm.
  - unfold complete. destruct (nth_error _ _); [|exact Hm].
    destruct res as [img cw|]; [unfold img_onload|unfold img_onerror]; simpl;
      destruct (canvasRef st); simpl; auto.
Qed.

Lemma run_mapLoaded_true (events : list Event) :
  forall st, mapLoaded st = true ->
             mapLoaded (run unsigned_long random st events) = true.
Proof.
  unfold run. induction events as [|e events IH]; intros st Hm; simpl; [exact Hm|].
  apply IH, step_mapLoaded_true, Hm.
Qed.

Lemma run_mapLoaded_false (events : list Event) :
  forall st, mapLoaded st = false ->
             forallb not_a_success events = true ->
             mapLoaded (run unsigned_long random st events) = false.
Proof.
  unfold run. induction events as [|e events IH]; intros st Hm Hev; simpl;
    [exact Hm|].
  simpl in Hev. apply andb_prop in Hev. destruct Hev as [He Hev].
  apply IH; [|exact Hev].
  apply step_mapLoaded_false; assumption.
Qed.

Lemma step_deaths (st : AppState) (e : Event) :
  is_mount e = false -> deaths (step unsigned_long random st e) = deaths st.
Proof.
  intros He. destruct e as [| |k res]; [discriminate| |]; simpl.
  - unfold handleResize, drawMap.
    destruct (mapLoaded st); [|reflexivity]. destruct (canvasRef st); reflexivity.
  - unfold complete. destruct (nth_error _ _); [|reflexivity].
    destruct res as [img cw|]; [unfold img_onload|unfold img_onerror]; simpl;
      destruct (canvasRef st); reflexivity.
Qed.

(** Without a canvas and without loads in flight no event starts a load,
    draws or logs. *)
Lemma step_without_canvas (st : AppState) (e : Event) :
  canvasRef st = None -> loading st = [] ->
  let st' := step unsigned_long random st e in
  canvasRef st' = None /\ loading st' = []
  /\ mapLoaded st' = mapLoaded st /\ console st' = console st
  /\ canvasDimensions st' = canvasDimensions st.
Proof.
  intros Hc Hl. destruct e as [| |k res]; simpl.
  - unfold mount, drawMap. rewrite Hc.
    destruct (generateDeathData_over _ _ _ _) as [[ds calls]|]; simpl;
      rewrite ?Hc; simpl; repeat split; auto.
  - unfold handleResize, drawMap. rewrite Hc.
    destruct (mapLoaded st) eqn:Hm; simpl; repeat split; auto.
  - unfold complete. rewrite Hl. destruct k; simpl; repeat split; auto.
Qed.

(** The state after the effects of the first commit, over draws in [0, 1). *)
Lemma mount_state (st : AppState) (c : Canvas) :
  unit_draws random ->
  hotspots st <> [] ->
  canvasRef st = Some c ->
  let st' := mount random st in
  Z.of_nat (List.length (deaths st')) = 5000%Z
  /\ Forall in_bounds (deaths st')
  /\ loading st' = loading st ++ [deaths st; deaths st']
  /\ canvasRef st' = Some c
  /\ hotspots st' = hotspots st
  /\ mapLoaded st' = mapLoaded st
  /\ (randomCalls st + 3 * List.length (deaths st') <= randomCalls st'
      <= randomCalls st + 4 * List.length (deaths st'))%nat.
Proof.
  intros Hr Hne Hc st'. unfold st', mount, generateDeathData_over.
  destruct (loop_total random (hotspots st) 5000 (Z.to_nat (5000 - 0)) Hne Hr
              0%Z [] (randomCalls st) eq_refl)
    as (ds & calls' & Hrun & Hlen & Hall).
  rewrite Hrun.
  destruct (loop_returns random (hotspots st) 5000 (Z.to_nat (5000 - 0)) 0%Z []
              ([] ++ ds) (randomCalls st) calls' eq_refl Hrun)
    as (new & _ & _ & Hcalls).
  rewrite <- Hlen in Hcalls.
  simpl app. unfold drawMap. rewrite Hc. simpl.
  rewrite <- app_assoc. simpl.
  split; [rewrite Hlen; apply Z2Nat.id; lia|].
  split; [exact Hall|].
  split; [reflexivity|].
  split; [reflexivity|].
  split; [reflexivity|].
  split; [reflexivity|].
  exact Hcalls.
Qed.

End ComponentRuns.

Lemma surface_of_some (o : option Canvas) (w h : R) (b : list Paint) :
  option_map surface o = Some (w, h, b) ->
  exists c, o = Some c /\ width c = w /\ height c = h /\ bitmap c = b.
Proof.
  destruct o as [c|]; [|discriminate]. simpl. unfold surface.
  intros [= Hw Hh Hb]. exists c. auto.
Qed.

(** X8. A load that completes paints the samples its [drawMap] closed over
    when it started, not the samples the component holds when it completes;
    the state variable [deaths] is left alone and the load leaves the list
    of loads in flight. *)
Theorem completed_load_paints_its_closure
    (unsigned_long : R -> R) (k : nat) (img : Image) (containerWidth : N)
    (deaths0 : list Sample) (st : AppState) (c : Canvas) :
  nth_error (loading st) k = Some deaths0 ->
  canvasRef st = Some c ->
  let st' := complete unsigned_long k (LoadOk img containerWidth) st in
  let newWidth := IZR (Z.of_N containerWidth) in
  let newHeight :=
    newWidth / (IZR (Zpos (img_width img)) / IZR (Zpos (img_height img))) in
  option_map bitmap (canvasRef st')
  = Some (PaintImage img 0 0 (unsigned_long newWidth) (unsigned_long newHeight)
          :: map (fun s =>
                    PaintFill [mkArc (x s * (newWidth / 800))
                                     (y s * (newHeight / 800)) 2 0 (PI * 2)]
                              "rgba(255, 0, 0, 0.5)") deaths0
          ++ map (fun h =>
                    PaintStroke [mkArc (hx h * (newWidth / 800))
                                       (hy h * (newHeight / 800))
                                       (radius h * (newWidth / 800)) 0 (PI * 2)]
                                "rgba(0, 255, 255, 0.3)" 1) (hotspots st))
  /\ deaths st' = deaths st
  /\ loading st' = remove_nth k (loading st).
Proof.
  intros Hk Hc st' newWidth newHeight.
  destruct (complete_ok unsigned_long k img containerWidth deaths0 st c Hk Hc)
    as (Hs & _ & Hd & _ & Hl).
  fold st' newWidth newHeight in Hs, Hd, Hl.
  destruct (surface_of_some _ _ _ _ Hs) as (c' & -> & _ & _ & Hb).
  simpl. rewrite Hb. auto.
Qed.

(** A component that holds one sample while a load started over the empty
    array is still in flight. *)
Definition page_with_stale_load : AppState :=
  mkApp HOTSPOTS (Some blank_canvas) false [mkSample 400 400]
        (mkDimensions 0 0) [[]] [] 0.

Lemma completed_load_paints_its_closure_witness :
  nth_error (loading page_with_stale_load) 0 = Some []
  /\ canvasRef page_with_stale_load = Some blank_canvas
  /\ deaths (complete (fun r => r) 0 (LoadOk map_image 400) page_with_stale_load)
     = [mkSample 400 400]
  /\ option_map (fun c => List.length (bitmap c))
       (canvasRef (complete (fun r => r) 0 (LoadOk map_image 400)
                     page_with_stale_load))
     = Some 6%nat.
Proof.
  split; [reflexivity|]. split; [reflexivity|].
  destruct (completed_load_paints_its_closure (fun r => r) 0 map_image 400 []
              page_with_stale_load blank_canvas eq_refl eq_refl)
    as (Hb & Hd & _).
  split; [exact Hd|].
  destruct (canvasRef (complete (fun r => r) 0 (LoadOk map_image 400)
                         page_with_stale_load)) as [c'|]; [|discriminate].
  simpl in Hb. injection Hb as Hb. simpl. rewrite Hb. reflexivity.
Defined.

(** X9. While the ref holds no canvas and no load is in flight, no sequence
    of events starts a load, paints, logs, sets [mapLoaded] or stores
    dimensions: [drawMap] returns at its guard every time. *)
Theorem no_canvas_no_effect
    (unsigned_long : R -> R) (random : nat -> R)
    (st : AppState) (events : list Event) :
  canvasRef st = None ->
  loading st = [] ->
  let st' := run unsigned_long random st events in
  canvasRef st' = None
  /\ loading st' = []
  /\ mapLoaded st' = mapLoaded st
  /\ console st' = console st
  /\ canvasDimensions st' = canvasDimensions st.
Proof.
  revert st. unfold run.
  induction events as [|e events IH]; intros st Hc Hl; simpl; [auto|].
  destruct (step_without_canvas unsigned_long random st e Hc Hl)
    as (Hc' & Hl' & Hm & Hco & Hd).
  destruct (IH _ Hc' Hl') as (H1 & H2 & H3 & H4 & H5).
  repeat split; congruence.
Qed.

Lemma no_canvas_no_effect_witness :
  canvasRef (initialState None) = None
  /\ loading (initialState None) = []
  /\ mapLoaded (run (fun r => r) (fun _ => 0) (initialState None)
                  [Mount; Resize; Completed 0 (LoadOk map_image 400);
                   Completed 0 LoadError]) = false.
Proof.
  split; [reflexivity|]. split; [reflexivity|].
  exact (proj1 (proj2 (proj2
           (no_canvas_no_effect (fun r => r) (fun _ => 0) (initialState None)
              [Mount; Resize; Completed 0 (LoadOk map_image 400);
               Completed 0 LoadError] eq_refl eq_refl)))).
Defined.

(** X10. Nothing ever sets [mapLoaded] back to false: once a load in flight
    has succeeded on a canvas, [mapLoaded] is true after every further
    sequence of events, failed loads included. *)
Theorem mapLoaded_never_reset
    (unsigned_long : R -> R) (random : nat -> R) (k : nat) (img : Image)
    (containerWidth : N) (deaths0 : list Sample) (st : AppState) (c : Canvas)
    (events : list Event) :
  nth_error (loading st) k = Some deaths0 ->
  canvasRef st = Some c ->
  mapLoaded (run unsigned_long random st
               (Completed k (LoadOk img containerWidth) :: events)) = true.
Proof.
  intros Hk Hc.
  change (run unsigned_long random st
            (Completed k (LoadOk img containerWidth) :: events))
    with (run unsigned_long random
            (complete unsigned_long k (LoadOk img containerWidth) st) events).
  apply run_mapLoaded_true.
  destruct (complete_ok unsigned_long k img containerWidth deaths0 st c Hk Hc)
    as (_ & Hm & _).
  exact Hm.
Qed.

Lemma mapLoaded_never_reset_witness :
  nth_error (loading (drawMap fresh_page)) 0 = Some []
  /\ canvasRef (drawMap fresh_page) = Some blank_canvas
  /\ mapLoaded (run (fun r => r) (fun _ => 0) (drawMap fresh_page)
                  [Completed 0 (LoadOk map_image 400); Resize;
                   Completed 0 LoadError; Resize; Completed 0 LoadError])
     = true.
Proof.
  split; [reflexivity|]. split; [reflexivity|].
  exact (mapLoaded_never_reset (fun r => r) (fun _ => 0) 0 map_image 400 []
           (drawMap fresh_page) blank_canvas
           [Resize; Completed 0 LoadError; Resize; Completed 0 LoadError]
           eq_refl eq_refl).
Defined.

(** X11. Only the effect of the first commit sets [deaths]: resizes and
    loads, successful or failed and in any number, leave the samples as
    they are. *)
Theorem deaths_set_by_mount_only
    (unsigned_long : R -> R) (random : nat -> R)
    (st : AppState) (events : list Event) :
  forallb (fun e => negb (is_mount e)) events = true ->
  deaths (run unsigned_long random st events) = deaths st.
Proof.
  revert st. unfold run.
  induction events as [|e events IH]; intros st Hev; simpl; [reflexivity|].
  simpl in Hev. apply andb_prop in Hev. destruct Hev as [He Hev].
  rewrite (IH _ Hev). apply step_deaths.
  destruct (is_mount e); [discriminate|reflexivity].
Qed.

Lemma deaths_set_by_mount_only_witness :
  deaths (run (fun r => r) (fun _ => 0) page_with_stale_load
            [Completed 0 (LoadOk map_image 400); Resize; Completed 0 LoadError])
  = [mkSample 400 400].
Proof.
  exact (deaths_set_by_mount_only (fun r => r) (fun _ => 0) page_with_stale_load
           [Completed 0 (LoadOk map_image 400); Resize; Completed 0 LoadError]
           eq_refl).
Defined.

(** X12. Over draws in [0, 1) and a non-empty table the effects of the first
    commit (in a production build, where each effect runs once) leave the
    component with exactly 5000 samples, all on the map, after between
    three and four calls of [Math.random()] per sample; and two loads in
    flight: one over the array of before, one over the new samples. *)
Theorem mount_generates_5000
    (random : nat -> R) (st : AppState) (c : Canvas) :
  unit_draws random ->
  hotspots st <> [] ->
  canvasRef st = Some c ->
  let st' := mount random st in
  Z.of_nat (List.length (deaths st')) = 5000%Z
  /\ Forall in_bounds (deaths st')
  /\ loading st' = loading st ++ [deaths st; deaths st']
  /\ mapLoaded st' = mapLoaded st
  /\ (randomCalls st + 3 * List.length (deaths st') <= randomCalls st'
      <= randomCalls st + 4 * List.length (deaths st'))%nat.
Proof.
  intros Hr Hne Hc st'.
  destruct (mount_state random st c Hr Hne Hc)
    as (H1 & H2 & H3 & _ & _ & H6 & H7 & H8).
  fold st' in H1, H2, H3, H6, H7, H8.
  repeat split; assumption.
Qed.

Lemma mount_generates_5000_witness :
  unit_draws (fun _ => 0)
  /\ hotspots fresh_page <> []
  /\ canvasRef fresh_page = Some blank_canvas
  /\ Z.of_nat (List.length (deaths (mount (fun _ => 0) fresh_page))) = 5000%Z.
Proof.
  assert (Hr : unit_draws (fun _ => 0)) by (intros n; lra).
  split; [exact Hr|]. split; [exact HOTSPOTS_nonempty|]. split; [reflexivity|].
  exact (proj1 (mount_generates_5000 (fun _ => 0) fresh_page blank_canvas Hr
                  HOTSPOTS_nonempty eq_refl)).
Defined.

(** X13. Until a load succeeds the overlay "Loading Wilderness map..." stays
    over the canvas: after any sequence of mounts, resizes and failed loads
    from a state where [mapLoaded] is false it is still shown, also when the
    canvas under it carries the fallback message.  In a state where
    [mapLoaded] is true it is not shown, and no later event brings it
    back. *)
Theorem overlay_until_first_success
    (unsigned_long : R -> R) (random : nat -> R)
    (st : AppState) (events : list Event) :
  (mapLoaded st = false ->
   forallb not_a_success events = true ->
   loading_overlay (run unsigned_long random st events)
   = Some "Loading Wilderness map..."%string)
  /\ (mapLoaded st = true ->
      loading_overlay (run unsigned_long random st events) = None).
Proof.
  unfold loading_overlay. split.
  - intros Hm Hev.
    rewrite (run_mapLoaded_false unsigned_long random events st Hm Hev).
    reflexivity.
  - intros Hm.
    rewrite (run_mapLoaded_true unsigned_long random events st Hm).
    reflexivity.
Qed.

Lemma overlay_until_first_success_witness :
  mapLoaded (drawMap fresh_page) = false
  /\ loading_overlay
       (run (fun r => r) (fun _ => 0) (drawMap fresh_page)
          [Completed 0 LoadError; Resize])
     = Some "Loading Wilderness map..."%string
  /\ option_map bitmap
       (canvasRef (run (fun r => r) (fun _ => 0) (drawMap fresh_page)
                     [Completed 0 LoadError; Resize]))
     = Some [PaintText fallback_message 10 50 "white" "20px Arial"].
Proof.
  split; [reflexivity|]. split.
  - exact (proj1 (overlay_until_first_success (fun r => r) (fun _ => 0)
                    (drawMap fresh_page) [Completed 0 LoadError; Resize])
             eq_refl eq_refl).
  - unfold run. simpl fold_left. unfold complete. simpl nth_error. cbv iota.
    erewrite img_onerror_state by reflexivity. reflexivity.
Defined.

(** X15. The two loads that the first commit starts may complete in either
    order, and the last to complete decides what is seen.  If the load
    started first, over the still empty array, completes last, the surface
    shows the map and the hotspot outlines but not one of the 5000 samples
    the component holds; in the order in which they were started every
    sample is painted. *)
Theorem first_load_completing_last_hides_samples
    (unsigned_long : R -> R) (random : nat -> R) (img : Image)
    (containerWidth : N) (st : AppState) (c : Canvas) :
  unit_draws random ->
  hotspots st <> [] ->
  canvasRef st = Some c ->
  loading st = [] ->
  deaths st = [] ->
  let ok := LoadOk img containerWidth in
  let late := run unsigned_long random st [Mount; Completed 1 ok; Completed 0 ok] in
  let in_order := run unsigned_long random st [Mount; Completed 0 ok; Completed 0 ok] in
  let newWidth := IZR (Z.of_N containerWidth) in
  let newHeight :=
    newWidth / (IZR (Zpos (img_width img)) / IZR (Zpos (img_height img))) in
  let background :=
    PaintImage img 0 0 (unsigned_long newWidth) (unsigned_long newHeight) in
  let outlines :=
    map (hotspot_outline (newWidth / 800) (newHeight / 800)) (hotspots st) in
  deaths late = deaths in_order
  /\ Z.of_nat (List.length (deaths late)) = 5000%Z
  /\ option_map bitmap (canvasRef late) = Some (background :: outlines)
  /\ option_map bitmap (canvasRef in_order)
     = Some (background
             :: map (death_circle (newWidth / 800) (newHeight / 800))
                    (deaths in_order)
             ++ outlines).
Proof.
  intros Hr Hne Hc Hl Hd ok late in_order newWidth newHeight background outlines.
  destruct (mount_state random st c Hr Hne Hc)
    as (Hlen & _ & Hload & Hc1 & Hh1 & _).
  rewrite Hl, Hd in Hload. simpl in Hload.
  set (st1 := mount random st) in *.
  (* the second load completes first *)
  assert (Hk1 : nth_error (loading st1) 1 = Some (deaths st1))
    by (rewrite Hload; reflexivity).
  destruct (complete_ok unsigned_long 1 img containerWidth (deaths st1) st1 c Hk1 Hc1)
    as (Hs2 & _ & Hd2 & Hh2 & Hl2).
  set (st2 := complete unsigned_long 1 (LoadOk img containerWidth) st1) in *.
  destruct (surface_of_some _ _ _ _ Hs2) as (c2 & Hc2 & _).
  assert (Hk2 : nth_error (loading st2) 0 = Some [])
    by (rewrite Hl2, Hload; reflexivity).
  destruct (complete_ok unsigned_long 0 img containerWidth [] st2 c2 Hk2 Hc2)
    as (Hs3 & _ & Hd3 & _).
  destruct (surface_of_some _ _ _ _ Hs3) as (c3 & Hc3 & _ & _ & Hb3).
  (* the loads complete as they were started *)
  assert (Hk1' : nth_error (loading st1) 0 = Some [])
    by (rewrite Hload; reflexivity).
  destruct (complete_ok unsigned_long 0 img containerWidth [] st1 c Hk1' Hc1)
    as (Hs2' & _ & Hd2' & Hh2' & Hl2').
  set (st2' := complete unsigned_long 0 (LoadOk img containerWidth) st1) in *.
  destruct (surface_of_some _ _ _ _ Hs2') as (c2' & Hc2' & _).
  assert (Hk2' : nth_error (loading st2') 0 = Some (deaths st1))
    by (rewrite Hl2', Hload; reflexivity).
  destruct (complete_ok unsigned_long 0 img containerWidth (deaths st1) st2' c2'
              Hk2' Hc2') as (Hs3' & _ & Hd3' & _).
  destruct (surface_of_some _ _ _ _ Hs3') as (c3' & Hc3' & _ & _ & Hb3').
  assert (Hlate : late = complete unsigned_long 0 (LoadOk img containerWidth) st2)
    by reflexivity.
  assert (Hord : in_order = complete unsigned_long 0 (LoadOk img containerWidth) st2')
    by reflexivity.
  rewrite Hlate, Hord, Hc3, Hc3', Hd3, Hd3', Hd2, Hd2'. simpl.
  rewrite Hb3, Hb3', Hh2, Hh2', Hh1.
  split; [reflexivity|]. split; [exact Hlen|].
  split; reflexivity.
Qed.

Lemma first_load_completing_last_hides_samples_witness :
  unit_draws (fun _ => 0)
  /\ option_map (fun c => List.length (bitmap c))
       (canvasRef (run (fun r => r) (fun _ => 0) fresh_page
                     [Mount; Completed 1 (LoadOk map_image 400);
                      Completed 0 (LoadOk map_image 400)]))
     = Some 6%nat.
Proof.
  assert (Hr : unit_draws (fun _ => 0)) by (intros n; lra).
  split; [exact Hr|].
  destruct (first_load_completing_last_hides_samples (fun r => r) (fun _ => 0)
              map_image 400 fresh_page blank_canvas Hr HOTSPOTS_nonempty
              eq_refl eq_refl eq_refl) as (_ & _ & Hb & _).
  destruct (canvasRef (run (fun r => r) (fun _ => 0) fresh_page
                         [Mount; Completed 1 (LoadOk map_image 400);
                          Completed 0 (LoadOk map_image 400)])) as [c'|];
    [|discriminate].
  simpl in Hb. injection Hb as Hb. simpl. rewrite Hb. reflexivity.
Defined.
